(** * PDF Generator App: table parsing, column cleanup, content rendering

    A shallow embedding of [PDF Generator App/app.py] and the proofs of the
    properties its specification states.

    Python strings are lists of characters.  Characters are the code points
    below 256, which is enough for every delimiter the program looks at
    (the pipe, the dash, the line feed) and for the white space [str.strip]
    removes in that range.  Exceptions are values of [exn], and a function
    that can raise returns a [result]. *)

From Stdlib Require Import Ascii String.
From Stdlib Require Import List Bool Arith Lia ZArith QArith.
Import ListNotations.
Close Scope Q_scope.

Set Implicit Arguments.

(** ** Strings *)

Definition str := list ascii.

Definition py (s : string) : str := list_ascii_of_string s.

Definition LF : ascii := "010"%char.
Definition PIPE : ascii := "|"%char.
Definition DASH : ascii := "-"%char.

(** [bool(s)] of a Python sequence: true when it is not empty. *)
Definition truthy {A} (l : list A) : bool :=
  match l with
  | [] => false
  | _ :: _ => true
  end.

(** [str.isspace] on one character: TAB, LF, VT, FF, CR, the separators
    FS, GS, RS, US, the space, NEL and the no-break space. *)
Definition is_space (c : ascii) : bool :=
  let n := nat_of_ascii c in
  ((9 <=? n) && (n <=? 13)) || ((28 <=? n) && (n <=? 32))
  || (n =? 133) || (n =? 160).

Fixpoint lstrip (s : str) : str :=
  match s with
  | [] => []
  | c :: s' => if is_space c then lstrip s' else s
  end.

Definition rstrip (s : str) : str := rev (lstrip (rev s)).

(** [s.strip()] *)
Definition strip (s : str) : str := rstrip (lstrip s).

(** Puts a character in front of the first piece of a split. *)
Definition cons_hd (c : ascii) (ls : list str) : list str :=
  match ls with
  | [] => [[c]]
  | l :: ls' => (c :: l) :: ls'
  end.

(** [s.split(sep)] for a separator of one character: never empty, and
    the empty string splits into one empty piece. *)
Fixpoint split (sep : ascii) (s : str) : list str :=
  match s with
  | [] => [[]]
  | c :: s' =>
      if Ascii.eqb c sep then [] :: split sep s'
      else cons_hd c (split sep s')
  end.

(** [sep.join(l)] *)
Fixpoint join (sep : str) (l : list str) : str :=
  match l with
  | [] => []
  | x :: xs =>
      match xs with
      | [] => x
      | _ :: _ => x ++ sep ++ join sep xs
      end
  end.

(** ["|" in line] *)
Definition contains (c : ascii) (s : str) : bool :=
  existsb (Ascii.eqb c) s.

(** After the first dash of [^-+$]: more dashes, then the end of the
    string, which [$] also finds just before one final line feed. *)
Fixpoint dashes_to_end (s : str) : bool :=
  match s with
  | [] => true
  | c :: s' =>
      if Ascii.eqb c DASH then dashes_to_end s'
      else Ascii.eqb c LF && negb (truthy s')
  end.

(** [re.match(r"^-+$", cell)], as a truth value. *)
Definition re_match_dashes (cell : str) : bool :=
  match cell with
  | [] => false
  | c :: s' => Ascii.eqb c DASH && dashes_to_end s'
  end.

(** ** Exceptions and results *)

Inductive exn : Type :=
| ValueError (msg : str)
| TypeError (msg : str)
| HTTPException (status_code : Z) (detail : str)
| ClientError (msg : str)
| LibraryError (msg : str).

Inductive result (A : Type) : Type :=
| Ok (a : A)
| Raise (e : exn).

Arguments Ok {A} a.
Arguments Raise {A} e.

Definition is_ok {A} (r : result A) : bool :=
  match r with
  | Ok _ => true
  | Raise _ => false
  end.

(** ** The table parser *)

Definition grid := list (list str).

(** [max] of [x] and the starred [xs]: with nothing after the star the
    call has one integer argument, which is a [TypeError]. *)
Definition py_max (x : nat) (xs : list nat) : result nat :=
  match xs with
  | [] => Raise (TypeError (py "'int' object is not iterable"))
  | _ :: _ => Ok (fold_left Nat.max xs x)
  end.

(** A row followed by [max_cols - len(cells)] empty strings. *)
Definition pad (max_cols : nat) (cells : list str) : list str :=
  cells ++ repeat [] (max_cols - length cells).

(** [[row.strip() for row in markdown.strip().split("\n") if row.strip()]] *)
Definition table_rows (markdown : str) : list str :=
  map strip (filter (fun row => truthy (strip row)) (split LF (strip markdown))).

(** [all(cell == "" or re.match(r"^-+$", cell) for cell in separator)] *)
Definition separator_all (separator : list str) : bool :=
  forallb (fun cell => negb (truthy cell) || re_match_dashes cell) separator.

Definition insufficient_rows (markdown : str) : exn :=
  ValueError (py "Invalid table markdown: Insufficient rows. Markdown: " ++ markdown).

Definition bad_separator (markdown : str) : exn :=
  ValueError (py "Invalid table markdown: Separator row must contain only '---'. Markdown: "
              ++ markdown).

(** [parse_markdown_table].  The [except Exception] clause logs and raises
    the exception again, so it leaves the result as it is. *)
Definition parse_markdown_table (markdown : str) : result grid :=
  let rows := table_rows markdown in
  if length rows <? 3 then Raise (insufficient_rows markdown)
  else
    let header := split PIPE (nth 0 rows []) in
    let separator := split PIPE (nth 1 rows []) in
    let separator := map strip separator in
    if negb (separator_all separator) then Raise (bad_separator markdown)
    else
      let data := map (split PIPE) (skipn 2 rows) in
      match py_max (length header) (map (@length str) data) with
      | Raise e => Raise e
      | Ok max_cols =>
          let header := pad max_cols (map strip header) in
          let data := map (fun row => pad max_cols (map strip row)) data in
          Ok (header :: data)
      end.

(** ** Column cleanup *)

(** One row laid over the columns built so far: stops at the shorter. *)
Fixpoint zip_cons {A} (r : list A) (cols : list (list A)) : list (list A) :=
  match r, cols with
  | x :: r', c :: cols' => (x :: c) :: zip_cons r' cols'
  | _, _ => []
  end.

(** [zip] applied to the rows of a grid, as a list: the columns, as many
    as the shortest row has cells, and none when there is no row. *)
Fixpoint zip_star {A} (rows : list (list A)) : list (list A) :=
  match rows with
  | [] => []
  | r :: rs =>
      match rs with
      | [] => map (fun x => [x]) r
      | _ :: _ => zip_cons r (zip_star rs)
      end
  end.

(** [any(cell.strip() for cell in col)] *)
Definition col_has_text (col : list str) : bool :=
  existsb (fun cell => truthy (strip cell)) col.

(** [StyledPDF.clean_table_data] *)
Definition clean_table_data (data : grid) : grid :=
  if negb (truthy data) then data
  else
    let transposed := zip_star data in
    let cleaned := filter col_has_text transposed in
    if truthy cleaned then zip_star cleaned else data.

(** ** Numbers

    The page geometry is floating point in the program.  The embedding
    takes the number type and its operations as an interface and assumes
    no law about them, so what is proved holds for any arithmetic. *)

Class Number (num : Type) : Type := {
  of_Z : Z -> num;
  half : num;
  add : num -> num -> num;
  sub : num -> num -> num;
  mul : num -> num -> num;
  div : num -> num -> num;
  gt : num -> num -> bool
}.

(** [min(a, b)]: the first argument unless the second is smaller. *)
Definition py_min {num} `{Number num} (a b : num) : num :=
  if gt a b then b else a.

(** ** The document object, the storage client and what lies outside *)

(** A raster written by the table rasterizer: the grid drawn and the
    pixel size of the file. *)
Record png (num : Type) : Type := {
  png_data : grid;
  png_size : num * num
}.

(** The calls the program makes on its [FPDF] object. *)
Inductive pdf_call (num : Type) : Type :=
| AddFont (family style fname : str)
| AddPage
| SetTextColor (r g b : Z)
| SetFont (family style : str) (size : Z)
| Cell (w h : Z) (txt : str)
| Ln (h : num)
| MultiCell (w h : Z) (txt : str)
| Image (file : png num) (x : Z) (y w : num)
| Output.

Arguments AddFont {num} family style fname.
Arguments AddPage {num}.
Arguments SetTextColor {num} r g b.
Arguments SetFont {num} family style size.
Arguments Cell {num} w h txt.
Arguments Ln {num} h.
Arguments MultiCell {num} w h txt.
Arguments Image {num} file x y w.
Arguments Output {num}.

(** The calls on the object storage client. *)
Inductive cos_call : Type :=
| PutObject (bucket key body content_type : str)
| GeneratePresignedUrl (bucket key : str) (expires_in : Z).

(** The libraries and services around the program.  The document object is
    known by the calls made on it so far: its cursor, and whether the next
    call raises, are functions of that history (page chrome drawn by
    [add_page] and automatic page breaks are the library's business). *)
Record external (num : Type) : Type := {
  fpdf_w : num;
  fpdf_h : num;
  fpdf_get_y : list (pdf_call num) -> num;
  fpdf_raises : list (pdf_call num) -> pdf_call num -> option exn;
  fpdf_output : list (pdf_call num) -> result str;
  savefig : num -> num -> grid -> result (num * num);
  uuid4 : str;
  COS_BUCKET_NAME : str;
  cos_raises : list cos_call -> cos_call -> option exn;
  cos_url : list cos_call -> str;
  str_of_http_exception : Z -> str -> str
}.

(** What a request changes: the document being built and the storage. *)
Record world (num : Type) : Type := {
  pdf : list (pdf_call num);
  cos : list cos_call
}.

(** ** A state and exception monad *)

Definition M (num A : Type) : Type := world num -> result A * world num.

Definition ret {num A} (a : A) : M num A := fun w => (Ok a, w).

Definition raise {num A} (e : exn) : M num A := fun w => (Raise e, w).

Definition bind {num A B} (m : M num A) (k : A -> M num B) : M num B :=
  fun w =>
    match m w with
    | (Ok a, w') => k a w'
    | (Raise e, w') => (Raise e, w')
    end.

(** [try: m except Exception as e: handler(e)] *)
Definition try_except {num A} (m : M num A) (handler : exn -> M num A) : M num A :=
  fun w =>
    match m w with
    | (Ok a, w') => (Ok a, w')
    | (Raise e, w') => handler e w'
    end.

Definition lift {num A} (r : result A) : M num A := fun w => (r, w).

Declare Scope monad_scope.
Delimit Scope monad_scope with monad.
Notation "x <- m ;; k" := (bind m (fun x => k))
  (at level 61, m at next level, right associativity) : monad_scope.
Notation "m ;; k" := (bind m (fun _ => k))
  (at level 61, right associativity) : monad_scope.
Open Scope monad_scope.

(** [for x in xs: s = f(x, s)] *)
Fixpoint for_each {num A S} (f : A -> S -> M num S) (xs : list A) (s : S) : M num S :=
  match xs with
  | [] => ret s
  | x :: xs' => s' <- f x s ;; for_each f xs' s'
  end.

(** [str(e)] *)
Definition exn_str {num} (E : external num) (e : exn) : str :=
  match e with
  | ValueError msg => msg
  | TypeError msg => msg
  | ClientError msg => msg
  | LibraryError msg => msg
  | HTTPException status detail => str_of_http_exception E status detail
  end.

Definition is_ClientError (e : exn) : bool :=
  match e with
  | ClientError _ => true
  | _ => false
  end.

(** ** The application *)

Section App.

Context {num : Type} `{Number num}.
Variable E : external num.

(** One method call on the document: it raises, or it is done. *)
Definition call_pdf (c : pdf_call num) : M num unit :=
  fun w =>
    match fpdf_raises E (pdf w) c with
    | Some e => (Raise e, w)
    | None => (Ok tt, {| pdf := pdf w ++ [c]; cos := cos w |})
    end.

Definition get_y : M num num := fun w => (Ok (fpdf_get_y E (pdf w)), w).

Definition add_font (family style fname : str) : M num unit := call_pdf (AddFont family style fname).
Definition add_page : M num unit := call_pdf AddPage.
Definition set_text_color (r g b : Z) : M num unit := call_pdf (SetTextColor r g b).
Definition set_font (family style : str) (size : Z) : M num unit := call_pdf (SetFont family style size).
Definition cell (w h : Z) (txt : str) : M num unit := call_pdf (Cell w h txt).
Definition ln (h : num) : M num unit := call_pdf (Ln h).
Definition multi_cell (w h : Z) (txt : str) : M num unit := call_pdf (MultiCell w h txt).
Definition image (file : png num) (x : Z) (y w : num) : M num unit := call_pdf (Image file x y w).

(** One call on the storage client. *)
Definition call_cos (c : cos_call) : M num unit :=
  fun w =>
    match cos_raises E (cos w) c with
    | Some e => (Raise e, w)
    | None => (Ok tt, {| pdf := pdf w; cos := cos w ++ [c] |})
    end.

(** The figure size the rasterizer asks for: half a unit per character of
    the widest cells, at most fifteen, by half a unit per row. *)
Definition col_widths (data : grid) : list nat :=
  map (fun col => list_max (map (@length ascii) col)) (zip_star data).

Definition fig_width (data : grid) : num :=
  let total_width := list_sum (col_widths data) in
  py_min (of_Z 15) (mul (of_Z (Z.of_nat total_width)) half).

Definition fig_height (data : grid) : num :=
  mul (of_Z (Z.of_nat (length data))) half.

(** [create_dynamic_table_image].  The result is what the temporary file
    holds afterwards: nothing when the grid is empty and the function
    returns early, the raster otherwise.  Drawing the table, shading its
    header, wrapping long cells and saving the figure are the plotting
    library's work: [savefig] stands for it. *)
Definition create_dynamic_table_image (data : grid) : M num (option (png num)) :=
  try_except
    (if negb (truthy data) then ret None
     else
       size <- lift (savefig E (fig_width data) (fig_height data) data) ;;
       ret (Some {| png_data := data; png_size := size |}))
    (fun e => raise e).

(** [get_image_dimensions]: the imaging library cannot read a file that
    holds nothing. *)
Definition get_image_dimensions (file : option (png num)) : M num (num * num) :=
  match file with
  | Some f => ret (png_size f)
  | None => raise (LibraryError (py "cannot identify image file"))
  end.

Definition get_image_height (file : option (png num)) (width : num) : M num num :=
  dims <- get_image_dimensions file ;;
  let '(img_width, img_height) := dims in
  let aspect_ratio := div img_height img_width in
  ret (mul width aspect_ratio).

(** [render_table].  The temporary file exists from the moment it is
    named, so the test on its existence succeeds; placing an image needs
    a file that holds one. *)
Definition render_table (markdown_table : str) : M num unit :=
  try_except
    (data <- lift (parse_markdown_table markdown_table) ;;
     let data := clean_table_data data in
     file <- create_dynamic_table_image data ;;
     let img_width := sub (fpdf_w E) (of_Z 20) in
     img_height <- get_image_height file img_width ;;
     y <- get_y ;;
     (if gt (add y img_height) (sub (fpdf_h E) (of_Z 20))
      then add_page
      else ret tt) ;;
     y <- get_y ;;
     match file with
     | Some f => image f 10 y img_width
     | None => raise (LibraryError (py "cannot identify image file"))
     end ;;
     ln (add img_height (of_Z 5)))
    (fun e => raise e).

(** The body of the loop of [render_content], on one line. *)
Definition render_line (line : str) (st : list str * bool) : M num (list str * bool) :=
  let '(buffer, in_table) := st in
  if contains PIPE line then
    st <- (if negb in_table then
             buffer <- (if truthy buffer then
                          multi_cell 0 8 (strip (join [LF] buffer)) ;;
                          ln (of_Z 5) ;;
                          ret []
                        else ret buffer) ;;
             ret (buffer, true)
           else ret (buffer, in_table)) ;;
    let '(buffer, in_table) := st in
    ret (buffer ++ [strip line], in_table)
  else
    st <- (if in_table then
             render_table (join [LF] buffer) ;;
             ln (of_Z 10) ;;
             ret ([], false)
           else ret (buffer, in_table)) ;;
    let '(buffer, in_table) := st in
    ret (buffer ++ [line], in_table).

(** [StyledPDF.render_content] *)
Definition render_content (content : str) : M num unit :=
  try_except
    (let lines := split LF (strip content) in
     st <- for_each render_line lines ([], false) ;;
     let '(buffer, in_table) := st in
     if in_table then
       render_table (join [LF] buffer) ;;
       ln (of_Z 10)
     else if truthy buffer then
       multi_cell 0 8 (strip (join [LF] buffer)) ;;
       ln (of_Z 5)
     else ret tt)
    (fun e => raise e).

(** [StyledPDF.add_section] *)
Definition add_section (title content : str) (is_disclaimer : bool) : M num unit :=
  try_except
    ((if is_disclaimer then
        set_text_color 0 0 0 ;;
        set_font (py "DejaVu") (py "I") 8
      else
        set_text_color 153 102 255 ;;
        set_font (py "DejaVu") (py "B") 12) ;;
     cell 0 10 title ;;
     ln (of_Z 3) ;;
     (if negb is_disclaimer then
        set_font (py "DejaVu") [] 10 ;;
        set_text_color 0 0 0
      else ret tt) ;;
     render_content content ;;
     ln (of_Z 5))
    (fun e => raise e).

(** [StyledPDF()]: a new document, then the four fonts. *)
Definition StyledPDF : M num unit :=
  (fun w => (Ok tt, {| pdf := []; cos := cos w |})) ;;
  try_except
    (add_font (py "DejaVu") [] (py "DejaVuSans.ttf") ;;
     add_font (py "DejaVu") (py "B") (py "DejaVuSans-Bold.ttf") ;;
     add_font (py "DejaVu") (py "I") (py "DejaVuSans-Oblique.ttf") ;;
     add_font (py "DejaVu") (py "BI") (py "DejaVuSans-BoldOblique.ttf"))
    (fun e => raise e).

End App.

(** The request body: seven named sections. *)
Record GeneratePDFRequest : Type := {
  executive_summary : str;
  portfolio_summary : str;
  tax_loss_harvesting_analysis : str;
  reinvestment_strategy : str;
  portfolio_outlook : str;
  actionable_next_steps : str;
  irs_compliance_warning : str
}.

(** [body.dict().items()]: the fields in the order they are declared. *)
Definition dict (body : GeneratePDFRequest) : list (str * str) :=
  [ (py "executive_summary", executive_summary body);
    (py "portfolio_summary", portfolio_summary body);
    (py "tax_loss_harvesting_analysis", tax_loss_harvesting_analysis body);
    (py "reinvestment_strategy", reinvestment_strategy body);
    (py "portfolio_outlook", portfolio_outlook body);
    (py "actionable_next_steps", actionable_next_steps body);
    (py "irs_compliance_warning", irs_compliance_warning body) ].

(** [s.replace(a, b)] for single characters. *)
Definition replace (a b : ascii) (s : str) : str :=
  map (fun c => if Ascii.eqb c a then b else c) s.

Definition is_lower (c : ascii) : bool :=
  let n := nat_of_ascii c in (97 <=? n) && (n <=? 122).

Definition is_upper (c : ascii) : bool :=
  let n := nat_of_ascii c in (65 <=? n) && (n <=? 90).

Definition to_upper (c : ascii) : ascii := ascii_of_nat (nat_of_ascii c - 32).
Definition to_lower (c : ascii) : ascii := ascii_of_nat (nat_of_ascii c + 32).

(** [s.title()] on the letters of the field names, which are ASCII. *)
Fixpoint title_from (previous_is_cased : bool) (s : str) : str :=
  match s with
  | [] => []
  | c :: s' =>
      if is_lower c then
        (if previous_is_cased then c else to_upper c) :: title_from true s'
      else if is_upper c then
        (if previous_is_cased then to_lower c else c) :: title_from true s'
      else c :: title_from false s'
  end.

Definition title (s : str) : str := title_from false s.

Definition fixed_content : list (str * str) :=
  [ (py "About This Report",
     py "This report outlines a strategy for optimizing your portfolio through tax-loss harvesting (TLH) "
     ++ py "and reinvestment. It is designed to align with your aggressive risk tolerance, sector preferences, "
     ++ py "and growth-oriented investment goals.") ].

Definition disclaimer_text : str :=
  py "This report is provided for informational purposes only and is based on the data and preferences you have shared. "
  ++ py "The recommendations contained herein are intended to assist in optimizing your portfolio in alignment with your "
  ++ py "stated investment goals, risk tolerance, and financial objectives." ++ [LF; LF]
  ++ py "Market Risks: All investments involve risk, including the potential loss of principal. Past performance is not indicative "
  ++ py "of future results." ++ [LF]
  ++ py "Tax Considerations: Tax-loss harvesting recommendations are based on current IRS guidelines, which are subject to change. "
  ++ py "Consult a qualified tax advisor." ++ [LF]
  ++ py "No Guarantees: There is no guarantee that recommendations will achieve the desired outcomes." ++ [LF]
  ++ py "Dynamic Market Conditions: This report does not account for unforeseen market fluctuations or macroeconomic factors."
  ++ [LF; LF]
  ++ py "Consult with legal, tax, and financial advisors before acting on any recommendations provided in this report.".

(** The JSON object of a successful response. *)
Record response : Type := {
  message : str;
  file_url : str
}.

Section Endpoint.

Context {num : Type} `{Number num}.
Variable E : external num.

(** [generate_pdf], the body of the route. *)
Definition generate_pdf (body : GeneratePDFRequest) (api_key : str) : M num response :=
  try_except
    (StyledPDF E ;;
     add_page E ;;
     for_each (fun (item : str * str) (_ : unit) =>
                 let '(title, content) := item in
                 add_section E title content false)
              fixed_content tt ;;
     for_each (fun (item : str * str) (_ : unit) =>
                 let '(field, content) := item in
                 let formatted_title := title (replace "_" " " field) in
                 add_section E formatted_title content false)
              (dict body) tt ;;
     add_section E (py "Disclaimer") disclaimer_text true ;;
     call_pdf E Output ;;
     pdf_output <- (fun w => (fpdf_output E (pdf w), w)) ;;
     let unique_suffix := uuid4 E in
     let object_name := py "Portfolio_Optimization_Report_" ++ unique_suffix ++ py ".pdf" in
     try_except
       (call_cos E (PutObject (COS_BUCKET_NAME E) object_name pdf_output (py "application/pdf")))
       (fun e =>
          if is_ClientError e
          then raise (HTTPException 500 (py "Error uploading PDF to COS."))
          else raise e) ;;
     presigned_url <-
       try_except
         (call_cos E (GeneratePresignedUrl (COS_BUCKET_NAME E) object_name 432000) ;;
          (fun w => (Ok (cos_url E (cos w)), w)))
         (fun e =>
            if is_ClientError e
            then raise (HTTPException 500 (py "Error generating pre-signed URL."))
            else raise e) ;;
     ret {| message := py "PDF generated successfully"; file_url := presigned_url |})
    (fun e => raise (HTTPException 500 (py "Error generating PDF: " ++ exn_str E e))).

End Endpoint.

(** ** The API key *)

Definition str_eqb (a b : str) : bool :=
  if list_eq_dec ascii_dec a b then true else false.

(** [os.getenv("API_KEY", "default_key")], on the process environment. *)
Definition API_KEY (environ : str -> option str) : str :=
  match environ (py "API_KEY") with
  | Some v => v
  | None => py "default_key"
  end.

Definition unauthorized : exn :=
  HTTPException 401 (py "Invalid or missing API Key").

(** [get_api_key], on what the header dependency yields. *)
Definition get_api_key (environ : str -> option str) (api_key : option str) : result str :=
  match api_key with
  | Some k => if str_eqb k (API_KEY environ) then Ok k else Raise unauthorized
  | None => Raise unauthorized
  end.

(** [api_key_header], the framework's header dependency built with
    [auto_error=False]: the value of the header, and [None] both when the
    request has no such header and when the header is empty. *)
Definition api_key_header (header : option str) : option str :=
  match header with
  | Some k => if truthy k then Some k else None
  | None => None
  end.

(** The route with its dependencies: the framework reads the header
    through [api_key_header], resolves [get_api_key] on the result, and
    calls the body of the route only with what [get_api_key] returns. *)
Definition post_generate_pdf {num} `{Number num} (E : external num)
    (environ : str -> option str) (header : option str) (body : GeneratePDFRequest)
    : M num response :=
  match get_api_key environ (api_key_header header) with
  | Raise e => raise e
  | Ok api_key => generate_pdf E body api_key
  end.

(** ** Definitions that follow the specification's wording *)

(** The lines of a table block as the specification puts it: split on line
    breaks, trim each line, discard the blank ones. *)
Definition nonblank_lines (markdown : str) : list str :=
  filter (@truthy ascii) (map strip (split LF markdown)).

(** A cell made of the dash repeated one or more times. *)
Definition all_dashes (cell : str) : bool :=
  truthy cell && forallb (Ascii.eqb DASH) cell.

(** An acceptable separator cell: empty, or dashes only. *)
Definition separator_cell_ok (cell : str) : bool :=
  negb (truthy cell) || all_dashes cell.

(** The cells of a line: split on the pipe, each one trimmed. *)
Definition cells (line : str) : list str := map strip (split PIPE line).

Definition separator_ok (line : str) : bool :=
  forallb separator_cell_ok (cells line).

(** The widest row among the given lines. *)
Definition max_cols (lines : list str) : nat :=
  list_max (map (fun line => length (cells line)) lines).

(** Steps 1 to 5 of the parser as the specification lists them. *)
Definition table_grid (markdown : str) : result grid :=
  match nonblank_lines markdown with
  | header :: separator :: ((_ :: _) as data) =>
      if separator_ok separator
      then Ok (map (fun line => pad (max_cols (header :: data)) (cells line))
                   (header :: data))
      else Raise (bad_separator markdown)
  | _ => Raise (insufficient_rows markdown)
  end.

(** A maximal run of consecutive lines of one classification. *)
Inductive run : Type :=
| ProseRun (lines : list str)
| TableRun (lines : list str).

(** A line is a table line when it contains the pipe, else prose; it
    joins the run that follows it when that run is of its kind. *)
Definition push_line (line : str) (rs : list run) : list run :=
  if contains PIPE line then
    match rs with
    | TableRun ls :: rs' => TableRun (line :: ls) :: rs'
    | _ => TableRun [line] :: rs
    end
  else
    match rs with
    | ProseRun ls :: rs' => ProseRun (line :: ls) :: rs'
    | _ => ProseRun [line] :: rs
    end.

Fixpoint runs (lines : list str) : list run :=
  match lines with
  | [] => []
  | line :: rest => push_line line (runs rest)
  end.

Definition run_lines (r : run) : list str :=
  match r with
  | ProseRun ls => ls
  | TableRun ls => ls
  end.

Definition run_is_table (r : run) : bool :=
  match r with
  | ProseRun _ => false
  | TableRun _ => true
  end.

(** A run has lines, all of its own classification. *)
Definition homogeneous (r : run) : Prop :=
  run_lines r <> []
  /\ Forall (fun line => contains PIPE line = run_is_table r) (run_lines r).

(** Neighbouring runs are of different kinds: every run is maximal. *)
Fixpoint alternating (rs : list run) : Prop :=
  match rs with
  | [] => True
  | r1 :: rest =>
      match rest with
      | [] => True
      | r2 :: _ => run_is_table r1 <> run_is_table r2 /\ alternating rest
      end
  end.

(** The lines of a section body. *)
Definition body_lines (content : str) : list str := split LF (strip content).

(** The text of a table block: its trimmed lines. *)
Definition table_text (lines : list str) : str := join [LF] (map strip lines).

(** The text of a prose block. *)
Definition prose_text (lines : list str) : str := strip (join [LF] lines).

(** The table blocks of a section body, in order. *)
Definition table_blocks (content : str) : list str :=
  flat_map (fun r => match r with
                     | TableRun ls => [table_text ls]
                     | ProseRun _ => []
                     end)
           (runs (body_lines content)).

(** What the document shows: text blocks and table images. *)
Inductive element : Type :=
| ProseBlock (txt : str)
| TableImage (g : grid).

Definition block_of_run (r : run) : result element :=
  match r with
  | ProseRun ls => Ok (ProseBlock (prose_text ls))
  | TableRun ls =>
      match parse_markdown_table (table_text ls) with
      | Ok g => Ok (TableImage (clean_table_data g))
      | Raise e => Raise e
      end
  end.

(** The elements of a sequence of runs, up to the first table that does
    not parse. *)
Fixpoint blocks (rs : list run) : result (list element) :=
  match rs with
  | [] => Ok []
  | r :: rs' =>
      match block_of_run r with
      | Raise e => Raise e
      | Ok b =>
          match blocks rs' with
          | Raise e => Raise e
          | Ok bs => Ok (b :: bs)
          end
      end
  end.

Definition element_of_call {num} (c : pdf_call num) : list element :=
  match c with
  | MultiCell _ _ txt => [ProseBlock txt]
  | Image f _ _ _ => [TableImage (png_data f)]
  | _ => []
  end.

(** The elements drawn by a history of calls, in order. *)
Definition elements {num} (calls : list (pdf_call num)) : list element :=
  flat_map element_of_call calls.

Definition is_Output {num} (c : pdf_call num) : bool :=
  match c with
  | Output => true
  | _ => false
  end.

(** No document bytes were asked for. *)
Definition no_output {num} (calls : list (pdf_call num)) : Prop :=
  existsb is_Output calls = false.

(** The document accepts every call. *)
Definition never_raises {num} (E : external num) : Prop :=
  forall calls c, fpdf_raises E calls c = None.

(** Libraries that never raise: the document accepts every call and the
    rasterizer writes every figure. *)
Definition reliable {num} (E : external num) : Prop :=
  never_raises E
  /\ (forall fw fh g, exists size, savefig E fw fh g = Ok size).

(** Nothing was sent to the storage beyond [c], and no document bytes
    were asked for. *)
Definition quiet {num} (c : list cos_call) (w : world num) : Prop :=
  cos w = c /\ no_output (pdf w).

(** A computation that keeps a property of the world, however it ends. *)
Definition preserves {num A} (P : world num -> Prop) (m : M num A) : Prop :=
  forall w, P w -> P (snd (m w)).

(** A computation that raises from every world with the property, and
    keeps the property. *)
Definition fails {num A} (P : world num -> Prop) (m : M num A) : Prop :=
  forall w, P w -> exists e w', m w = (Raise e, w') /\ P w'.

(** The first table-parse error among section bodies, in order. *)
Fixpoint first_error (contents : list str) : option exn :=
  match contents with
  | [] => None
  | c :: cs =>
      match blocks (runs (body_lines c)) with
      | Raise e => Some e
      | Ok _ => first_error cs
      end
  end.

Section Runs.

Context {num : Type} `{Number num}.
Variable E : external num.

(** Flushing one run: a prose run becomes one text block, a table run
    goes through the table pipeline. *)
Definition flush_run (r : run) : M num unit :=
  match r with
  | ProseRun ls => multi_cell E 0 8 (prose_text ls) ;; ln E (of_Z 5)
  | TableRun ls => render_table E (table_text ls) ;; ln E (of_Z 10)
  end.

Fixpoint render_runs (rs : list run) : M num unit :=
  match rs with
  | [] => ret tt
  | r :: rs' => flush_run r ;; render_runs rs'
  end.

(** The height at which the image of a raster is drawn on the page. *)
Definition placed_height (size : num * num) : num :=
  mul (sub (fpdf_w E) (of_Z 20)) (div (snd size) (fst size)).

(** The page-break test for an image of height [h] with the cursor at [y]. *)
Definition overflows (y h : num) : bool :=
  gt (add y h) (sub (fpdf_h E) (of_Z 20)).

End Runs.

(** Column [j] of a grid. *)
Definition column (g : grid) (j : nat) : list str :=
  map (fun row => nth j row []) g.

(** A column all of whose cells are empty after trimming. *)
Definition blank_column (g : grid) (j : nat) : bool :=
  forallb (fun c => negb (truthy (strip c))) (column g j).

(** The indexes of the columns that are not blank, in order. *)
Definition kept_columns (g : grid) (w : nat) : list nat :=
  filter (fun j => negb (blank_column g j)) (seq 0 w).

(** A grid all of whose rows have [w] cells. *)
Definition rectangular (w : nat) (g : grid) : Prop :=
  Forall (fun row => length row = w) g.

(** ** Auxiliary definitions for the proofs *)

(** Appends a character to the last piece of a split. *)
Fixpoint snoc_last (c : ascii) (ls : list str) : list str :=
  match ls with
  | [] => [[c]]
  | l :: ls' =>
      match ls' with
      | [] => [l ++ [c]]
      | _ :: _ => l :: snoc_last c ls'
      end
  end.

(** The state of the loop of [render_content]. *)

(** The buffer holds the lines of the current run, trimmed when they are
    table lines. *)
Definition buffered (in_table : bool) (raw : list str) : list str :=
  if in_table then map strip raw else raw.

(** The runs of the remaining lines, with the lines already in the buffer
    put in front. *)
Definition pending (in_table : bool) (raw : list str) (rs : list run) : list run :=
  if in_table then
    match rs with
    | TableRun ls :: rs' => TableRun (raw ++ ls) :: rs'
    | _ => TableRun raw :: rs
    end
  else
    match rs with
    | ProseRun ls :: rs' => ProseRun (raw ++ ls) :: rs'
    | _ => ProseRun raw :: rs
    end.

(** What [render_content] does after its loop. *)
Definition loop_end {num} `{Number num} (E : external num) (st : list str * bool) : M num unit :=
  let '(buffer, in_table) := st in
  if in_table then
    render_table E (join [LF] buffer) ;;
    ln E (of_Z 10)
  else if truthy buffer then
    multi_cell E 0 8 (strip (join [LF] buffer)) ;;
    ln E (of_Z 5)
  else ret tt.

(** ** A sample environment: rational page geometry on A4, libraries that
    never raise, rasters of 600 by 300 pixels *)

#[export] Instance Number_Q : Number Q := {|
  of_Z := inject_Z;
  half := (1 # 2)%Q;
  add := Qplus;
  sub := Qminus;
  mul := Qmult;
  div := Qdiv;
  gt := fun a b => negb (Qle_bool a b)
|}.

(** The cursor of the sample document: 45 at the top of a page, moved
    down by line breaks and text blocks. *)
Fixpoint sample_get_y (calls : list (pdf_call Q)) (y : Q) : Q :=
  match calls with
  | [] => y
  | AddPage :: cs => sample_get_y cs (45 # 1)%Q
  | Ln h :: cs => sample_get_y cs (Qred (y + h)%Q)
  | MultiCell _ h _ :: cs => sample_get_y cs (Qred (y + inject_Z h)%Q)
  | Cell _ h _ :: cs => sample_get_y cs (Qred (y + inject_Z h)%Q)
  | _ :: cs => sample_get_y cs y
  end.

Definition sample_external : external Q := {|
  fpdf_w := (210 # 1)%Q;
  fpdf_h := (297 # 1)%Q;
  fpdf_get_y := fun calls => sample_get_y calls (45 # 1)%Q;
  fpdf_raises := fun _ _ => None;
  fpdf_output := fun _ => Ok (py "%PDF");
  savefig := fun _ _ _ => Ok ((600 # 1)%Q, (300 # 1)%Q);
  uuid4 := py "0000";
  COS_BUCKET_NAME := py "bucket";
  cos_raises := fun _ _ => None;
  cos_url := fun _ => py "https://example.invalid/report.pdf";
  str_of_http_exception := fun _ detail => detail
|}.

Definition empty_world : world Q := {| pdf := []; cos := [] |}.

(** The two examples of the specification. *)
Definition ragged_table : str :=
  py "A|B" ++ [LF] ++ py "--|--" ++ [LF] ++ py "1|" ++ [LF] ++ py "|2".

Definition summary_body : str :=
  py "Summary line." ++ [LF; LF] ++ py "| A | B |" ++ [LF] ++ py "|---|---|" ++ [LF]
  ++ py "| 1 | 2 |" ++ [LF; LF] ++ py "More text.".

Definition header_and_separator : str := py "A|B" ++ [LF] ++ py "--|--".

Definition bad_separator_table : str :=
  py "A|B" ++ [LF] ++ py "--|x-" ++ [LF] ++ py "1|2".

Definition blank_middle : grid :=
  [[py "A"; py " "; py "B"]; [py "1"; []; py "2"]].

Definition small_table : str := py "A|B" ++ [LF] ++ py "--|--" ++ [LF] ++ py "1|2".

(** A request whose fourth section holds a table of one line. *)
Definition sample_request : GeneratePDFRequest := {|
  executive_summary := summary_body;
  portfolio_summary := py "Holdings.";
  tax_loss_harvesting_analysis := py "Losses.";
  reinvestment_strategy := py "a|b";
  portfolio_outlook := py "Outlook.";
  actionable_next_steps := py "Steps.";
  irs_compliance_warning := py "Warning."
|}.

(** The same request with a well-formed table in its fourth section. *)
Definition good_request : GeneratePDFRequest := {|
  executive_summary := summary_body;
  portfolio_summary := py "Holdings.";
  tax_loss_harvesting_analysis := py "Losses.";
  reinvestment_strategy := small_table;
  portfolio_outlook := py "Outlook.";
  actionable_next_steps := py "Steps.";
  irs_compliance_warning := py "Warning."
|}.

(** A world whose cursor is low on the page. *)
Definition low_on_page : world Q := {| pdf := [Ln (200 # 1)%Q]; cos := [] |}.

Definition no_environ : str -> option str := fun _ => None.

(** A process environment in which [API_KEY] is set to the given value. *)
Definition environ_with_key (v : str) : str -> option str :=
  fun name => if str_eqb name (py "API_KEY") then Some v else None.

Definition secret_environ : str -> option str := environ_with_key (py "s3cret").

Definition empty_key_environ : str -> option str := environ_with_key [].

(** ** Definitions for the further properties *)

Section Route.

Context {num : Type} `{Number num}.
Variable E : external num.

(** The composer's part of [generate_pdf]: a new document with the fixed
    section, the sections of the request and the disclaimer. *)
Definition build_document (body : GeneratePDFRequest) : M num unit :=
  StyledPDF E ;;
  add_page E ;;
  for_each (fun (item : str * str) (_ : unit) =>
              let '(title, content) := item in
              add_section E title content false)
           fixed_content tt ;;
  for_each (fun (item : str * str) (_ : unit) =>
              let '(field, content) := item in
              let formatted_title := title (replace "_" " " field) in
              add_section E formatted_title content false)
           (dict body) tt ;;
  add_section E (py "Disclaimer") disclaimer_text true.

(** The name under which [generate_pdf] stores the document. *)
Definition object_name : str :=
  py "Portfolio_Optimization_Report_" ++ uuid4 E ++ py ".pdf".

Definition put_call (pdf_output : str) : cos_call :=
  PutObject (COS_BUCKET_NAME E) object_name pdf_output (py "application/pdf").

Definition url_call : cos_call :=
  GeneratePresignedUrl (COS_BUCKET_NAME E) object_name 432000.

(** The storage part of [generate_pdf]: the upload, then the link. *)
Definition store_document (pdf_output : str) : M num response :=
  try_except
    (call_cos E (put_call pdf_output))
    (fun e =>
       if is_ClientError e
       then raise (HTTPException 500 (py "Error uploading PDF to COS."))
       else raise e) ;;
  presigned_url <-
    try_except
      (call_cos E url_call ;;
       (fun w => (Ok (cos_url E (cos w)), w)))
      (fun e =>
         if is_ClientError e
         then raise (HTTPException 500 (py "Error generating pre-signed URL."))
         else raise e) ;;
  ret {| message := py "PDF generated successfully"; file_url := presigned_url |}.

(** The error response of [generate_pdf] for an exception of the build. *)
Definition error_response (e : exn) : exn :=
  HTTPException 500 (py "Error generating PDF: " ++ exn_str E e).

End Route.

(** The elements of the sections of a request, in order. *)
Fixpoint all_blocks (contents : list str) : result (list element) :=
  match contents with
  | [] => Ok []
  | c :: cs =>
      match blocks (runs (body_lines c)) with
      | Raise e => Raise e
      | Ok bs =>
          match all_blocks cs with
          | Raise e => Raise e
          | Ok rest => Ok (bs ++ rest)
          end
      end
  end.

Definition is_AddPage {num} (c : pdf_call num) : bool :=
  match c with
  | AddPage => true
  | _ => false
  end.

(** The storage accepts every call. *)
Definition storage_ok {num} (E : external num) : Prop :=
  forall calls c, cos_raises E calls c = None.

(** The document can always be written out. *)
Definition output_ok {num} (E : external num) : Prop :=
  forall calls, exists bytes, fpdf_output E calls = Ok bytes.

(** A computation that ends well from every world and draws the given
    elements. *)
Definition draws {num} (bs : list element) (m : M num unit) : Prop :=
  forall w, exists w', m w = (Ok tt, w')
                       /\ elements (pdf w') = elements (pdf w) ++ bs.

(** The four font files the constructor asks for. *)
Definition font_calls {num} : list (pdf_call num) :=
  [ AddFont (py "DejaVu") [] (py "DejaVuSans.ttf");
    AddFont (py "DejaVu") (py "B") (py "DejaVuSans-Bold.ttf");
    AddFont (py "DejaVu") (py "I") (py "DejaVuSans-Oblique.ttf");
    AddFont (py "DejaVu") (py "BI") (py "DejaVuSans-BoldOblique.ttf") ].

(** The text of the fixed section. *)
Definition about_text : str := snd (hd ([], []) fixed_content).

(** A table written with outer pipes, and the same with blank lines and
    indentation. *)
Definition piped_table : str :=
  py "| A | B |" ++ [LF] ++ py "|---|---|" ++ [LF] ++ py "| 1 | 2 |".

Definition loose_table : str :=
  [LF] ++ py "  A|B  " ++ [LF; LF] ++ py "-|-|-" ++ [LF] ++ py " 1|2" ++ [LF].

(** The sample environment with a rasterizer that raises, with a storage
    that refuses uploads, with a storage that refuses links, and with a
    document that refuses the bold font. *)
Definition with_externals (raster : result (Q * Q))
    (refuse_cos : cos_call -> option exn) (refuse_pdf : pdf_call Q -> option exn)
    : external Q := {|
  fpdf_w := fpdf_w sample_external;
  fpdf_h := fpdf_h sample_external;
  fpdf_get_y := fpdf_get_y sample_external;
  fpdf_raises := fun _ c => refuse_pdf c;
  fpdf_output := fpdf_output sample_external;
  savefig := fun _ _ _ => raster;
  uuid4 := uuid4 sample_external;
  COS_BUCKET_NAME := COS_BUCKET_NAME sample_external;
  cos_raises := fun _ c => refuse_cos c;
  cos_url := cos_url sample_external;
  str_of_http_exception := str_of_http_exception sample_external
|}.

Definition broken_rasterizer : external Q :=
  with_externals (Raise (LibraryError (py "no display"))) (fun _ => None) (fun _ => None).

Definition refusing_uploads : external Q :=
  with_externals (Ok ((600 # 1)%Q, (300 # 1)%Q))
    (fun c => match c with
              | PutObject _ _ _ _ => Some (ClientError (py "AccessDenied"))
              | _ => None
              end)
    (fun _ => None).

Definition refusing_links : external Q :=
  with_externals (Ok ((600 # 1)%Q, (300 # 1)%Q))
    (fun c => match c with
              | GeneratePresignedUrl _ _ _ => Some (ClientError (py "AccessDenied"))
              | _ => None
              end)
    (fun _ => None).

Definition without_bold_font : external Q :=
  with_externals (Ok ((600 # 1)%Q, (300 # 1)%Q)) (fun _ => None)
    (fun c => match c with
              | AddFont _ (_ :: _) _ => Some (LibraryError (py "font file not found"))
              | _ => None
              end).

(** ** Facts about strings *)

Section StringFacts.

Example split_keeps_empty_pieces :
  split PIPE (py "| A | B |") = [[]; py " A "; py " B "; []].
Proof. reflexivity. Qed.

Example split_of_empty : split LF [] = [[]].
Proof. reflexivity. Qed.

Example strip_both_ends :
  strip ([LF] ++ py "  a b " ++ [LF]) = py "a b".
Proof. reflexivity. Qed.

Example join_lines : join [LF] [py "a"; []; py "b"] = py "a" ++ [LF; LF] ++ py "b".
Proof. reflexivity. Qed.

Example dollar_before_final_line_feed :
  re_match_dashes (py "--" ++ [LF]) = true /\ re_match_dashes (py "-x") = false.
Proof. split; reflexivity. Qed.

Example zip_star_stops_at_shortest :
  zip_star [[py "a"; py "b"]; [py "c"]] = [[py "a"; py "c"]].
Proof. reflexivity. Qed.

Example title_of_field :
  title (replace "_" " " (py "irs_compliance_warning")) = py "Irs Compliance Warning".
Proof. reflexivity. Qed.

Lemma LF_is_space : is_space LF = true.
Proof. reflexivity. Qed.

Lemma split_not_nil (sep : ascii) (s : str) : split sep s <> [].
Proof.
  destruct s as [|c s]; simpl; [discriminate|].
  destruct (Ascii.eqb c sep); [discriminate|].
  destruct (split sep s); discriminate.
Qed.

Lemma split_length_pos (sep : ascii) (s : str) : 1 <= length (split sep s).
Proof.
  generalize (split_not_nil sep s).
  destruct (split sep s); simpl; [congruence | lia].
Qed.

Lemma lstrip_hd_not_space (s : str) (d : ascii) :
  is_space d = false -> is_space (hd d (lstrip s)) = false.
Proof.
  intros Hd. induction s as [|c s IH]; simpl; [exact Hd|].
  destruct (is_space c) eqn:E; [exact IH | exact E].
Qed.

Lemma lstrip_snoc (m : str) (c : ascii) :
  lstrip (m ++ [c])
  = match lstrip m with
    | [] => lstrip [c]
    | _ :: _ => lstrip m ++ [c]
    end.
Proof.
  induction m as [|a m IH]; [reflexivity|].
  simpl. destruct (is_space a); [exact IH | reflexivity].
Qed.

Lemma rstrip_cons (c : ascii) (l : str) :
  rstrip (c :: l)
  = match rstrip l with
    | [] => if is_space c then [] else [c]
    | _ :: _ => c :: rstrip l
    end.
Proof.
  unfold rstrip. simpl rev. rewrite lstrip_snoc.
  destruct (lstrip (rev l)) as [|x r]; simpl.
  - destruct (is_space c); reflexivity.
  - rewrite rev_app_distr. simpl.
    destruct (rev r); reflexivity.
Qed.

Lemma strip_comm (l : str) : rstrip (lstrip l) = lstrip (rstrip l).
Proof.
  induction l as [|c l IH]; [reflexivity|].
  rewrite rstrip_cons. simpl lstrip at 1.
  destruct (is_space c) eqn:E.
  - rewrite IH. destruct (rstrip l); simpl; rewrite ?E; reflexivity.
  - rewrite rstrip_cons.
    destruct (rstrip l); simpl; rewrite E; reflexivity.
Qed.

Lemma strip_rev (l : str) : strip (rev l) = rev (strip l).
Proof.
  unfold strip. rewrite strip_comm.
  unfold rstrip. now rewrite !rev_involutive.
Qed.

Lemma strip_cons_space (c : ascii) (l : str) :
  is_space c = true -> strip (c :: l) = strip l.
Proof. intros H. unfold strip. simpl. now rewrite H. Qed.

Lemma strip_last_not_space (s : str) : is_space (last (strip s) DASH) = false.
Proof.
  unfold strip, rstrip.
  destruct (lstrip (rev (lstrip s))) as [|c r] eqn:E; [reflexivity|].
  simpl rev. rewrite last_last.
  change c with (hd DASH (c :: r)). rewrite <- E.
  now apply lstrip_hd_not_space.
Qed.

Lemma snoc_last_app (c : ascii) (xs : list str) (l : str) :
  snoc_last c (xs ++ [l]) = xs ++ [l ++ [c]].
Proof.
  induction xs as [|x xs IH]; [reflexivity|].
  simpl. rewrite IH. destruct xs; reflexivity.
Qed.

Lemma split_snoc (sep : ascii) (s : str) (c : ascii) :
  split sep (s ++ [c])
  = if Ascii.eqb c sep then split sep s ++ [[]] else snoc_last c (split sep s).
Proof.
  induction s as [|a s IH].
  - simpl. destruct (Ascii.eqb c sep); reflexivity.
  - simpl. rewrite IH. generalize (split_not_nil sep s).
    destruct (split sep s) as [|l0 rest]; [congruence|]. intros _.
    destruct (Ascii.eqb c sep), (Ascii.eqb a sep); try reflexivity.
    simpl. destruct rest; reflexivity.
Qed.

Lemma split_rev (sep : ascii) (s : str) :
  split sep (rev s) = rev (map (@rev ascii) (split sep s)).
Proof.
  induction s as [|a s IH]; [reflexivity|].
  simpl rev. rewrite split_snoc, IH. simpl split.
  destruct (Ascii.eqb a sep); [reflexivity|].
  generalize (split_not_nil sep s).
  destruct (split sep s) as [|l0 rest]; [congruence|]. intros _.
  simpl. now rewrite snoc_last_app.
Qed.

Lemma truthy_rev (A : Type) (l : list A) : truthy (rev l) = truthy l.
Proof.
  destruct l as [|x l]; [reflexivity|].
  simpl. destruct (rev l); reflexivity.
Qed.

Lemma filter_truthy_map_rev (ls : list str) :
  filter (@truthy ascii) (map (@rev ascii) ls)
  = map (@rev ascii) (filter (@truthy ascii) ls).
Proof.
  induction ls as [|l ls IH]; [reflexivity|].
  simpl. rewrite truthy_rev, IH. destruct (truthy l); reflexivity.
Qed.

Lemma nonblank_lines_rev (s : str) :
  nonblank_lines (rev s) = rev (map (@rev ascii) (nonblank_lines s)).
Proof.
  unfold nonblank_lines.
  rewrite split_rev, map_rev, map_map, filter_rev.
  f_equal.
  rewrite <- filter_truthy_map_rev, map_map.
  f_equal. apply map_ext. intros l. apply strip_rev.
Qed.

Lemma nonblank_lines_lstrip (s : str) :
  nonblank_lines (lstrip s) = nonblank_lines s.
Proof.
  induction s as [|c s IH]; [reflexivity|].
  simpl lstrip. destruct (is_space c) eqn:E; [|reflexivity].
  rewrite IH. unfold nonblank_lines. simpl split.
  destruct (Ascii.eqb c LF); [reflexivity|].
  generalize (split_not_nil LF s).
  destruct (split LF s) as [|l0 rest]; [congruence|]. intros _.
  simpl. now rewrite strip_cons_space.
Qed.

Lemma nonblank_lines_rstrip (s : str) :
  nonblank_lines (rstrip s) = nonblank_lines s.
Proof.
  unfold rstrip.
  rewrite nonblank_lines_rev, nonblank_lines_lstrip, nonblank_lines_rev.
  rewrite map_rev, rev_involutive, map_map.
  rewrite <- (map_id (nonblank_lines s)) at 2.
  apply map_ext. intros l. apply rev_involutive.
Qed.

Lemma map_filter_strip (ls : list str) :
  map strip (filter (fun row => truthy (strip row)) ls)
  = filter (@truthy ascii) (map strip ls).
Proof.
  induction ls as [|l ls IH]; [reflexivity|].
  simpl. destruct (truthy (strip l)); simpl; now rewrite IH.
Qed.

(** The rows the parser works on are the non-blank trimmed lines: the
    trimming of the whole block before the split changes nothing. *)
Lemma table_rows_nonblank_lines (markdown : str) :
  table_rows markdown = nonblank_lines markdown.
Proof.
  unfold table_rows. rewrite map_filter_strip.
  change (nonblank_lines (strip markdown) = nonblank_lines markdown).
  unfold strip. now rewrite nonblank_lines_rstrip, nonblank_lines_lstrip.
Qed.

End StringFacts.

(** ** Facts about the parser *)

Section ParserFacts.

Lemma dashes_to_end_forallb (s : str) :
  is_space (last s DASH) = false ->
  dashes_to_end s = forallb (Ascii.eqb DASH) s.
Proof.
  induction s as [|c s IH]; [reflexivity|].
  intros H. cbn [dashes_to_end forallb].
  rewrite (Ascii.eqb_sym DASH c).
  destruct (Ascii.eqb c DASH) eqn:E.
  - destruct s as [|d s]; [reflexivity|]. now apply IH.
  - destruct s as [|d s]; [|now rewrite andb_false_r].
    simpl in H. destruct (Ascii.eqb c LF) eqn:E'; [|reflexivity].
    apply Ascii.eqb_eq in E'. subst c. discriminate H.
Qed.

Lemma re_match_dashes_strip (x : str) :
  re_match_dashes (strip x) = all_dashes (strip x).
Proof.
  generalize (strip_last_not_space x).
  unfold re_match_dashes, all_dashes.
  destruct (strip x) as [|c s]; [reflexivity|]. intros H.
  cbn [truthy forallb andb]. rewrite (Ascii.eqb_sym DASH c).
  destruct (Ascii.eqb c DASH) eqn:E; [|reflexivity]. cbn [andb].
  destruct s as [|d s]; [reflexivity|].
  now apply dashes_to_end_forallb.
Qed.

Lemma separator_all_ok (line : str) :
  separator_all (map strip (split PIPE line)) = separator_ok line.
Proof.
  unfold separator_all, separator_ok, cells, separator_cell_ok.
  induction (split PIPE line) as [|x xs IH]; [reflexivity|].
  simpl. now rewrite re_match_dashes_strip, IH.
Qed.

Lemma fold_left_max (xs : list nat) (x : nat) :
  fold_left Nat.max xs x = Nat.max x (list_max xs).
Proof.
  revert x. induction xs as [|y ys IH]; intros x; simpl.
  - lia.
  - rewrite IH. lia.
Qed.

Lemma py_max_list_max (x y : nat) (ys : list nat) :
  py_max x (y :: ys) = Ok (list_max (x :: y :: ys)).
Proof. unfold py_max. now rewrite fold_left_max. Qed.

(** The parser computes what the specification's five steps describe. *)
Lemma parse_markdown_table_table_grid (markdown : str) :
  parse_markdown_table markdown = table_grid markdown.
Proof.
  unfold parse_markdown_table, table_grid.
  rewrite table_rows_nonblank_lines.
  destruct (nonblank_lines markdown) as [|header [|separator [|d ds]]];
    try reflexivity.
  change (length (header :: separator :: d :: ds) <? 3) with false.
  cbv iota.
  change (nth 0 (header :: separator :: d :: ds) []) with header.
  change (nth 1 (header :: separator :: d :: ds) []) with separator.
  change (skipn 2 (header :: separator :: d :: ds)) with (d :: ds).
  cbv zeta. rewrite separator_all_ok.
  destruct (separator_ok separator); [|reflexivity].
  simpl negb. cbv iota.
  simpl map at 1. rewrite py_max_list_max.
  assert (Hm : list_max (length (split PIPE header)
                 :: length (split PIPE d)
                 :: map (@length str) (map (split PIPE) ds))
               = max_cols (header :: d :: ds)).
  { unfold max_cols, cells. simpl map. rewrite !length_map.
    do 2 f_equal. rewrite map_map.
    f_equal. apply map_ext. intros l. now rewrite length_map. }
  rewrite Hm. unfold cells. simpl map.
  now rewrite map_map.
Qed.

Lemma cells_length_pos (line : str) : 1 <= length (cells line).
Proof. unfold cells. rewrite length_map. apply split_length_pos. Qed.

Lemma max_cols_ge (lines : list str) (line : str) :
  In line lines -> length (cells line) <= max_cols lines.
Proof.
  intros Hin. unfold max_cols.
  assert (Hle : list_max (map (fun l => length (cells l)) lines)
                <= list_max (map (fun l => length (cells l)) lines)) by lia.
  apply list_max_le in Hle. rewrite Forall_forall in Hle.
  apply Hle. apply in_map_iff. now exists line.
Qed.

Lemma pad_length (n : nat) (row : list str) :
  length row <= n -> length (pad n row) = n.
Proof. intros Hle. unfold pad. rewrite length_app, repeat_length. lia. Qed.

Lemma all_dashes_Forall (cell : str) :
  all_dashes cell = true <-> cell <> [] /\ Forall (fun c => c = DASH) cell.
Proof.
  unfold all_dashes. rewrite andb_true_iff, forallb_forall, Forall_forall.
  split; intros [Hne Hall]; split.
  - destruct cell; [discriminate | discriminate].
  - intros c Hin. symmetry. apply Ascii.eqb_eq. now apply Hall.
  - destruct cell; [congruence | reflexivity].
  - intros c Hin. apply Ascii.eqb_eq. symmetry. now apply Hall.
Qed.

(** A separator line is rejected exactly when one of its cells is neither
    empty nor made of dashes. *)
Lemma separator_ok_false (line : str) :
  separator_ok line = false
  <-> exists cell, In cell (cells line) /\ cell <> []
                   /\ ~ Forall (fun c => c = DASH) cell.
Proof.
  unfold separator_ok. split.
  - intros Hf.
    induction (cells line) as [|c cs IH]; [discriminate|].
    simpl in Hf. apply andb_false_iff in Hf. destruct Hf as [Hc|Hcs].
    + exists c. unfold separator_cell_ok in Hc.
      apply orb_false_iff in Hc. destruct Hc as [Hne Hd].
      split; [now left|]. split.
      * destruct c; [discriminate | discriminate].
      * intros Hall.
        assert (Ht : all_dashes c = true).
        { apply all_dashes_Forall. split; [|exact Hall].
          destruct c; [discriminate | discriminate]. }
        congruence.
    + destruct (IH Hcs) as [cell [Hin Hrest]].
      exists cell. split; [now right | exact Hrest].
  - intros [cell [Hin [Hne Hnd]]].
    destruct (forallb separator_cell_ok (cells line)) eqn:Hall; [|reflexivity].
    rewrite forallb_forall in Hall. specialize (Hall cell Hin).
    unfold separator_cell_ok in Hall. apply orb_true_iff in Hall.
    destruct Hall as [He|Hd].
    + destruct cell; [congruence | discriminate].
    + apply all_dashes_Forall in Hd. destruct Hd as [_ Hd]. contradiction.
Qed.

Lemma table_grid_rows (header : str) (data : list str) (g : grid) :
  g = map (fun line => pad (max_cols (header :: data)) (cells line)) (header :: data) ->
  length g = S (length data)
  /\ rectangular (max_cols (header :: data)) g.
Proof.
  intros ->. split.
  - now rewrite length_map.
  - apply Forall_forall. intros row Hin.
    apply in_map_iff in Hin. destruct Hin as [line [<- Hin]].
    apply pad_length. now apply max_cols_ge.
Qed.

Lemma max_cols_pos (header : str) (data : list str) :
  1 <= max_cols (header :: data).
Proof.
  generalize (cells_length_pos header).
  generalize (@max_cols_ge (header :: data) header (or_introl eq_refl)). lia.
Qed.

(** A grid that the parser returns comes from at least three lines with
    a well-formed separator. *)
Lemma parse_markdown_table_ok (markdown : str) (g : grid) :
  parse_markdown_table markdown = Ok g ->
  exists header separator d ds,
    nonblank_lines markdown = header :: separator :: d :: ds
    /\ separator_ok separator = true
    /\ g = map (fun line => pad (max_cols (header :: d :: ds)) (cells line))
               (header :: d :: ds).
Proof.
  rewrite parse_markdown_table_table_grid. unfold table_grid.
  destruct (nonblank_lines markdown) as [|header [|separator [|d ds]]];
    try discriminate.
  destruct (separator_ok separator) eqn:Hs; [|discriminate].
  intros Hg. injection Hg as <-.
  exists header, separator, d, ds. auto.
Qed.

End ParserFacts.

(** ** Facts about the monad *)

Section MonadFacts.

Context {num : Type}.

Lemma bind_assoc (A B C : Type) (m : M num A) (f : A -> M num B) (g : B -> M num C) w :
  bind (bind m f) g w = bind m (fun a => bind (f a) g) w.
Proof. unfold bind. destruct (m w) as [[a|e] w']; reflexivity. Qed.

Lemma bind_ret_r (A : Type) (m : M num A) w : bind m (fun a => ret a) w = m w.
Proof. unfold bind, ret. destruct (m w) as [[a|e] w']; reflexivity. Qed.

Lemma bind_unit_ret_r (m : M num unit) w : bind m (fun _ => ret tt) w = m w.
Proof. unfold bind, ret. destruct (m w) as [[[]|e] w']; reflexivity. Qed.

Lemma bind_ext (A B : Type) (m : M num A) (f g : A -> M num B) w :
  (forall a w', f a w' = g a w') -> bind m f w = bind m g w.
Proof. intros Hfg. unfold bind. destruct (m w) as [[a|e] w']; auto. Qed.

(** A handler that raises the exception again changes nothing. *)
Lemma try_except_reraise (A : Type) (m : M num A) w :
  try_except m (fun e => raise e) w = m w.
Proof. unfold try_except, raise. destruct (m w) as [[a|e] w']; reflexivity. Qed.

End MonadFacts.

(** ** The loop of the content renderer and the runs of the body *)

Section LoopFacts.

Context {num : Type} `{Number num}.
Variable E : external num.

Lemma push_line_pending (line : str) (rs : list run) :
  push_line line rs = pending (contains PIPE line) [line] rs.
Proof. unfold push_line, pending. destruct (contains PIPE line); reflexivity. Qed.

Lemma pending_same (it : bool) (raw : list str) (line : str) (rs : list run) :
  pending it raw (pending it [line] rs) = pending it (raw ++ [line]) rs.
Proof.
  unfold pending. destruct it, rs as [|[ls|ls] rs]; simpl;
    try reflexivity; now rewrite <- app_assoc.
Qed.

Lemma pending_table_prose (raw : list str) (line : str) (rs : list run) :
  pending true raw (pending false [line] rs) = TableRun raw :: pending false [line] rs.
Proof. unfold pending. destruct rs as [|[ls|ls] rs]; reflexivity. Qed.

Lemma pending_prose_table (raw : list str) (line : str) (rs : list run) :
  pending false raw (pending true [line] rs) = ProseRun raw :: pending true [line] rs.
Proof. unfold pending. destruct rs as [|[ls|ls] rs]; reflexivity. Qed.

Lemma buffered_snoc (it : bool) (raw : list str) (line : str) :
  buffered it raw ++ [if it then strip line else line] = buffered it (raw ++ [line]).
Proof. unfold buffered. destruct it; [now rewrite map_app | reflexivity]. Qed.

Lemma render_line_table_in_table (line : str) (buffer : list str) w :
  contains PIPE line = true ->
  render_line E line (buffer, true) w = ret (buffer ++ [strip line], true) w.
Proof. intros Hc. unfold render_line. now rewrite Hc. Qed.

Lemma render_line_prose_in_prose (line : str) (buffer : list str) w :
  contains PIPE line = false ->
  render_line E line (buffer, false) w = ret (buffer ++ [line], false) w.
Proof. intros Hc. unfold render_line. now rewrite Hc. Qed.

Lemma render_line_table_after_prose (line : str) (buffer : list str) w :
  contains PIPE line = true ->
  buffer <> [] ->
  render_line E line (buffer, false) w
  = (multi_cell E 0 8 (strip (join [LF] buffer)) ;;
     ln E (of_Z 5) ;;
     ret ([strip line], true)) w.
Proof.
  intros Hc Hb. unfold render_line. rewrite Hc.
  destruct buffer as [|x buffer]; [congruence|].
  cbn [negb truthy]. unfold bind, ret.
  destruct (multi_cell E 0 8 (strip (join [LF] (x :: buffer))) w) as [[[]|e] w1];
    [|reflexivity].
  destruct (ln E (of_Z 5) w1) as [[[]|e] w2]; reflexivity.
Qed.

Lemma render_line_prose_after_table (line : str) (buffer : list str) w :
  contains PIPE line = false ->
  render_line E line (buffer, true) w
  = (render_table E (join [LF] buffer) ;;
     ln E (of_Z 10) ;;
     ret ([line], false)) w.
Proof.
  intros Hc. unfold render_line. rewrite Hc.
  unfold bind, ret.
  destruct (render_table E (join [LF] buffer) w) as [[[]|e] w1]; [|reflexivity].
  destruct (ln E (of_Z 10) w1) as [[[]|e] w2]; reflexivity.
Qed.

Lemma for_each_cons (A S : Type) (f : A -> S -> M num S) (x : A) (xs : list A) (s : S) :
  for_each f (x :: xs) s = bind (f x s) (fun s' => for_each f xs s').
Proof. reflexivity. Qed.

Lemma bind_cong_l (A B : Type) (m m' : M num A) (k : A -> M num B) w :
  m w = m' w -> bind m k w = bind m' k w.
Proof. intros Hm. unfold bind. now rewrite Hm. Qed.

(** With a buffer that is not empty, the rest of the loop and the final
    flush render the pending runs one after the other. *)
Lemma loop_pending (lines : list str) :
  forall (raw : list str) (it : bool) w,
    raw <> [] ->
    bind (for_each (render_line E) lines (buffered it raw, it)) (loop_end E) w
    = render_runs E (pending it raw (runs lines)) w.
Proof.
  induction lines as [|line rest IH]; intros raw it w Hraw.
  - simpl for_each. change (loop_end E (buffered it raw, it) w
                            = render_runs E (pending it raw []) w).
    destruct it; simpl.
    + now rewrite bind_unit_ret_r.
    + destruct raw as [|x raw]; [congruence|]. simpl truthy. cbv iota.
      now rewrite bind_unit_ret_r.
  - rewrite for_each_cons, bind_assoc.
    change (runs (line :: rest)) with (push_line line (runs rest)).
    rewrite push_line_pending.
    destruct (contains PIPE line) eqn:Hc; destruct it.
    + (* a table line inside a table *)
      rewrite pending_same, <- (IH (raw ++ [line]) true w) by now destruct raw.
      rewrite <- (buffered_snoc true).
      now rewrite (bind_cong_l _ _ _ _ (render_line_table_in_table _ _ w Hc)).
    + (* a table line after prose: the prose is flushed first *)
      rewrite pending_prose_table.
      assert (Hb : buffered false raw <> []) by exact Hraw.
      rewrite (bind_cong_l _ _ _ _ (render_line_table_after_prose _ w Hc Hb)).
      simpl render_runs. unfold flush_run, prose_text.
      rewrite !bind_assoc. apply bind_ext. intros _ w1.
      rewrite bind_assoc. apply bind_ext. intros _ w2.
      exact (IH [line] true w2 ltac:(discriminate)).
    + (* a prose line after a table: the table is flushed first *)
      rewrite pending_table_prose.
      rewrite (bind_cong_l _ _ _ _ (render_line_prose_after_table _ _ w Hc)).
      simpl render_runs. unfold flush_run, table_text.
      rewrite !bind_assoc. apply bind_ext. intros _ w1.
      rewrite bind_assoc. apply bind_ext. intros _ w2.
      exact (IH [line] false w2 ltac:(discriminate)).
    + (* a prose line inside prose *)
      rewrite pending_same, <- (IH (raw ++ [line]) false w) by now destruct raw.
      rewrite <- (buffered_snoc false).
      now rewrite (bind_cong_l _ _ _ _ (render_line_prose_in_prose _ _ w Hc)).
Qed.

(** The content renderer flushes the runs of the body in order. *)
Lemma render_content_runs (content : str) w :
  render_content E content w = render_runs E (runs (body_lines content)) w.
Proof.
  unfold render_content. rewrite try_except_reraise.
  change (bind (for_each (render_line E) (body_lines content) ([], false))
            (loop_end E) w
          = render_runs E (runs (body_lines content)) w).
  destruct (body_lines content) as [|line rest]; [reflexivity|].
  rewrite for_each_cons, bind_assoc.
  change (runs (line :: rest)) with (push_line line (runs rest)).
  rewrite push_line_pending.
  destruct (contains PIPE line) eqn:Hc.
  - assert (Hl : render_line E line ([], false) w = ret ([strip line], true) w).
    { unfold render_line. now rewrite Hc. }
    rewrite (bind_cong_l _ _ _ _ Hl).
    exact (loop_pending rest true w (raw := [line]) ltac:(discriminate)).
  - assert (Hl : render_line E line ([], false) w = ret ([line], false) w).
    { unfold render_line. now rewrite Hc. }
    rewrite (bind_cong_l _ _ _ _ Hl).
    exact (loop_pending rest false w (raw := [line]) ltac:(discriminate)).
Qed.

Lemma pending_lines (it : bool) (raw : list str) (rs : list run) :
  concat (map run_lines (pending it raw rs)) = raw ++ concat (map run_lines rs).
Proof.
  unfold pending. destruct it, rs as [|[ls|ls] rs]; simpl;
    rewrite ?app_assoc; reflexivity.
Qed.

(** The runs partition the lines, in order. *)
Lemma runs_lines (lines : list str) : concat (map run_lines (runs lines)) = lines.
Proof.
  induction lines as [|line rest IH]; [reflexivity|].
  simpl runs. rewrite push_line_pending, pending_lines, IH. reflexivity.
Qed.

Lemma runs_homogeneous (lines : list str) : Forall homogeneous (runs lines).
Proof.
  induction lines as [|line rest IH]; [constructor|].
  simpl runs. unfold push_line.
  destruct (contains PIPE line) eqn:Hc;
    destruct (runs rest) as [|[ls|ls] rs];
    try (inversion IH as [|? ? [Hne Hall] Hrest]; subst);
    repeat constructor; simpl; auto; try discriminate.
Qed.

Lemma runs_alternating (lines : list str) : alternating (runs lines).
Proof.
  induction lines as [|line rest IH]; [exact I|].
  simpl runs. unfold push_line.
  destruct (contains PIPE line);
    destruct (runs rest) as [|[ls|ls] rs]; simpl; auto;
    try (split; [discriminate | exact IH]);
    destruct rs; simpl in *; auto.
Qed.

(** A body without table lines is one prose run. *)
Lemma runs_all_prose (lines : list str) :
  lines <> [] ->
  (forall line, In line lines -> contains PIPE line = false) ->
  runs lines = [ProseRun lines].
Proof.
  induction lines as [|line rest IH]; intros Hne Hall; [congruence|].
  simpl runs. unfold push_line. rewrite (Hall line (or_introl eq_refl)).
  destruct rest as [|l2 rest]; [reflexivity|].
  rewrite IH; [reflexivity | discriminate | intros l Hl; apply Hall; now right].
Qed.

End LoopFacts.

(** ** Facts about transposition and column cleanup *)

Section GridFacts.

Lemma map_seq_nth (A B : Type) (f : A -> B) (d : A) (l : list A) :
  map (fun j => f (nth j l d)) (seq 0 (length l)) = map f l.
Proof.
  induction l as [|x l IH]; [reflexivity|].
  simpl. f_equal. rewrite <- seq_shift, map_map. exact IH.
Qed.

Lemma nth_nil_default (A : Type) (j : nat) (d : A) : nth j [] d = d.
Proof. now destruct j. Qed.

Lemma zip_cons_map_seq (A : Type) (d : A) (r : list A) :
  forall F : nat -> list A,
    zip_cons r (map F (seq 0 (length r)))
    = map (fun j => nth j r d :: F j) (seq 0 (length r)).
Proof.
  induction r as [|x r IH]; intros F; [reflexivity|].
  simpl. f_equal. rewrite <- seq_shift, !map_map. apply IH.
Qed.

Lemma zip_cons_col_length (A : Type) (n : nat) (r : list A) :
  forall cols : list (list A),
    Forall (fun col => length col = n) cols ->
    Forall (fun col => length col = S n) (zip_cons r cols).
Proof.
  induction r as [|x r IH]; intros cols Hc; [constructor|].
  destruct cols as [|c cols]; [constructor|].
  inversion Hc; subst. simpl. constructor; [reflexivity | now apply IH].
Qed.

(** Every column of any grid has one cell per row. *)
Lemma zip_star_col_length (A : Type) (g : list (list A)) :
  Forall (fun col => length col = length g) (zip_star g).
Proof.
  induction g as [|r g IH]; [constructor|].
  destruct g as [|r2 g].
  - simpl. apply Forall_forall. intros col Hin.
    apply in_map_iff in Hin. destruct Hin as [x [<- _]]. reflexivity.
  - change (zip_star (r :: r2 :: g)) with (zip_cons r (zip_star (r2 :: g))).
    now apply zip_cons_col_length.
Qed.

(** The columns of a rectangular grid. *)
Lemma zip_star_rectangular (w : nat) (g : grid) :
  g <> [] -> rectangular w g -> zip_star g = map (column g) (seq 0 w).
Proof.
  induction g as [|r g IH]; intros Hne Hrect; [congruence|].
  inversion Hrect as [|? ? Hr Hg]; subst.
  destruct g as [|r2 g].
  - simpl. unfold column. simpl.
    symmetry. exact (map_seq_nth (fun x : str => [x]) [] r).
  - change (zip_star (r :: r2 :: g)) with (zip_cons r (zip_star (r2 :: g))).
    rewrite IH by (assumption || discriminate).
    exact (zip_cons_map_seq (A:=str) [] r (column (r2 :: g))).
Qed.

Lemma column_length (g : grid) (j : nat) : length (column g j) = length g.
Proof. unfold column. apply length_map. Qed.

Lemma nth_column (g : grid) (i j : nat) :
  nth i (column g j) [] = nth j (nth i g []) [].
Proof.
  unfold column.
  rewrite <- (nth_nil_default j (@nil ascii)) at 1.
  exact (map_nth (fun row => nth j row []) g [] i).
Qed.

(** Transposing chosen columns back gives, row by row, the cells at the
    chosen indexes. *)
Lemma zip_star_columns (g : grid) (js : list nat) :
  g <> [] -> js <> [] ->
  zip_star (map (column g) js)
  = map (fun row => map (fun j => nth j row []) js) g.
Proof.
  intros Hg Hjs.
  rewrite (@zip_star_rectangular (length g)).
  - rewrite <- (map_seq_nth (fun row => map (fun j => nth j row []) js) [] g).
    apply map_ext. intros i. unfold column at 1. rewrite map_map.
    apply map_ext. intros j. apply nth_column.
  - destruct js; [congruence | discriminate].
  - apply Forall_forall. intros col Hin.
    apply in_map_iff in Hin. destruct Hin as [j [<- _]]. apply column_length.
Qed.

Lemma col_has_text_blank (g : grid) (j : nat) :
  col_has_text (column g j) = negb (blank_column g j).
Proof.
  unfold col_has_text, blank_column.
  induction (column g j) as [|c col IH]; [reflexivity|].
  simpl. rewrite IH. now destruct (truthy (strip c)).
Qed.

Lemma filter_map_comm (A B : Type) (f : A -> B) (p : B -> bool) (l : list A) :
  filter p (map f l) = map f (filter (fun x => p (f x)) l).
Proof.
  induction l as [|x l IH]; [reflexivity|].
  simpl. destruct (p (f x)); simpl; now rewrite IH.
Qed.

Lemma cleaned_columns (w : nat) (g : grid) :
  g <> [] -> rectangular w g ->
  filter col_has_text (zip_star g) = map (column g) (kept_columns g w).
Proof.
  intros Hg Hrect. rewrite (zip_star_rectangular Hg Hrect), filter_map_comm.
  f_equal. unfold kept_columns. apply filter_ext. intros j.
  apply col_has_text_blank.
Qed.

(** Column cleanup on a rectangular grid keeps, in every row, the cells of
    the columns that are not blank, or the whole grid when all are. *)
Lemma clean_table_data_rectangular (w : nat) (g : grid) :
  g <> [] -> rectangular w g ->
  clean_table_data g
  = if truthy (kept_columns g w)
    then map (fun row => map (fun j => nth j row []) (kept_columns g w)) g
    else g.
Proof.
  intros Hg Hrect. unfold clean_table_data.
  destruct g as [|r g]; [congruence|]. cbn [truthy negb].
  rewrite (cleaned_columns Hg Hrect).
  set (kept := kept_columns (r :: g) w).
  assert (Ht : truthy (map (column (r :: g)) kept) = truthy kept)
    by (destruct kept; reflexivity).
  rewrite Ht. destruct (truthy kept) eqn:Hk; [|reflexivity].
  apply zip_star_columns; [assumption | destruct kept; discriminate].
Qed.

Lemma zip_star_involutive (n : nat) (cols : grid) :
  cols <> [] -> 1 <= n -> rectangular n cols ->
  zip_star (zip_star cols) = cols.
Proof.
  intros Hne Hn Hrect.
  rewrite (zip_star_rectangular Hne Hrect) at 1.
  rewrite zip_star_columns; [| assumption | destruct n; [lia | discriminate]].
  rewrite <- (map_id cols) at 2.
  apply map_ext_in. intros row Hin.
  assert (Hlen : length row = n)
    by (unfold rectangular in Hrect; rewrite Forall_forall in Hrect; auto).
  rewrite <- Hlen.
  etransitivity; [exact (map_seq_nth (fun x : str => x) [] row) | apply map_id].
Qed.

Lemma filter_idem (A : Type) (p : A -> bool) (l : list A) :
  filter p (filter p l) = filter p l.
Proof. apply forallb_filter_id, forallb_filter. Qed.

Lemma rectangular_filter (n : nat) (p : list str -> bool) (g : grid) :
  rectangular n g -> rectangular n (filter p g).
Proof.
  unfold rectangular. rewrite !Forall_forall. intros Hg row Hin.
  apply filter_In in Hin. now apply Hg.
Qed.

(** Cleaning a cleaned grid changes nothing, whatever the grid. *)
Lemma clean_table_data_idempotent (g : grid) :
  clean_table_data (clean_table_data g) = clean_table_data g.
Proof.
  destruct g as [|r g]; [reflexivity|].
  set (cleaned := filter col_has_text (zip_star (r :: g))).
  assert (Hc : clean_table_data (r :: g)
               = if truthy cleaned then zip_star cleaned else r :: g)
    by reflexivity.
  rewrite Hc. destruct (truthy cleaned) eqn:Ht; [|exact Hc].
  assert (Hne : cleaned <> []) by (destruct cleaned; discriminate).
  assert (Hrect : rectangular (length (r :: g)) cleaned)
    by (apply rectangular_filter, zip_star_col_length).
  assert (Hn : 1 <= length (r :: g)) by (simpl; lia).
  assert (Hf : filter col_has_text cleaned = cleaned)
    by (unfold cleaned; apply filter_idem).
  unfold clean_table_data.
  rewrite (zip_star_involutive Hne Hn Hrect), Hf, Ht.
  now destruct (negb (truthy (zip_star cleaned))).
Qed.

Lemma clean_table_data_length (w : nat) (g : grid) :
  g <> [] -> rectangular w g -> length (clean_table_data g) = length g.
Proof.
  intros Hg Hrect. rewrite (clean_table_data_rectangular Hg Hrect).
  destruct (truthy (kept_columns g w)); [apply length_map | reflexivity].
Qed.

Lemma clean_table_data_width (w : nat) (g : grid) :
  g <> [] -> rectangular w g -> 1 <= w ->
  forall row, In row (clean_table_data g) -> 1 <= length row.
Proof.
  intros Hg Hrect Hw row. rewrite (clean_table_data_rectangular Hg Hrect).
  destruct (kept_columns g w) as [|j js] eqn:Hk; cbn [truthy].
  - intros Hin. unfold rectangular in Hrect. rewrite Forall_forall in Hrect.
    rewrite (Hrect row Hin). exact Hw.
  - intros Hin. apply in_map_iff in Hin. destruct Hin as [row0 [<- _]].
    simpl. lia.
Qed.

End GridFacts.

(** ** Facts about rendering *)

Section RenderFacts.

Context {num : Type} `{Number num}.
Variable E : external num.

Lemma call_pdf_ok (c : pdf_call num) w :
  never_raises E ->
  call_pdf E c w = (Ok tt, {| pdf := pdf w ++ [c]; cos := cos w |}).
Proof. intros Hn. unfold call_pdf. now rewrite Hn. Qed.

(** A grid that went through the parser and the cleanup is not empty. *)
Lemma parsed_clean_not_empty (markdown : str) (g : grid) :
  parse_markdown_table markdown = Ok g ->
  2 <= length g
  /\ (forall row, In row g -> 1 <= length row)
  /\ 2 <= length (clean_table_data g)
  /\ (forall row, In row (clean_table_data g) -> 1 <= length row).
Proof.
  intros Hp.
  destruct (parse_markdown_table_ok _ Hp)
    as [header [separator [d [ds [_ [_ Hg]]]]]].
  destruct (table_grid_rows (data := d :: ds) Hg) as [Hlen Hrect].
  assert (Hne : g <> []) by (destruct g; [discriminate Hlen | discriminate]).
  assert (Hw := max_cols_pos header (d :: ds)).
  split; [|split; [|split]].
  - rewrite Hlen. simpl. lia.
  - intros row Hin. unfold rectangular in Hrect. rewrite Forall_forall in Hrect.
    now rewrite (Hrect row Hin).
  - rewrite (clean_table_data_length Hne Hrect), Hlen. simpl. lia.
  - exact (clean_table_data_width Hne Hrect Hw).
Qed.

Lemma create_dynamic_table_image_ok (data : grid) (size : num * num) w :
  data <> [] ->
  savefig E (fig_width data) (fig_height data) data = Ok size ->
  create_dynamic_table_image E data w
  = (Ok (Some {| png_data := data; png_size := size |}), w).
Proof.
  intros Hne Hs. unfold create_dynamic_table_image.
  rewrite try_except_reraise.
  destruct data as [|r data]; [congruence|]. cbn [truthy negb].
  unfold bind, lift, ret. now rewrite Hs.
Qed.

(** A table that does not parse makes [render_table] raise the parser's
    exception, with nothing drawn. *)
Lemma render_table_parse_error (markdown : str) (e : exn) w :
  parse_markdown_table markdown = Raise e ->
  render_table E markdown w = (Raise e, w).
Proof.
  intros Hp. unfold render_table. rewrite try_except_reraise.
  unfold bind, lift. now rewrite Hp.
Qed.

(** The calls of [render_table] for a table that parses, when the
    rasterizer writes the figure and the document accepts the calls. *)
Lemma render_table_calls (markdown : str) (g : grid) (size : num * num) w :
  parse_markdown_table markdown = Ok g ->
  savefig E (fig_width (clean_table_data g)) (fig_height (clean_table_data g))
          (clean_table_data g) = Ok size ->
  never_raises E ->
  let file := {| png_data := clean_table_data g; png_size := size |} in
  let h := placed_height E size in
  let page_break :=
    if overflows E (fpdf_get_y E (pdf w)) h then [AddPage] else [] in
  render_table E markdown w
  = (Ok tt,
     {| pdf := pdf w ++ page_break
                ++ [Image file 10 (fpdf_get_y E (pdf w ++ page_break))
                          (sub (fpdf_w E) (of_Z 20));
                    Ln (add h (of_Z 5))];
        cos := cos w |}).
Proof.
  intros Hp Hs Hn file h page_break.
  assert (Hne : clean_table_data g <> []).
  { destruct (parsed_clean_not_empty _ Hp) as [_ [_ [Hlen _]]].
    destruct (clean_table_data g); [simpl in Hlen; lia | discriminate]. }
  unfold render_table. rewrite try_except_reraise.
  unfold bind at 1. unfold lift. rewrite Hp.
  unfold bind at 1. rewrite (create_dynamic_table_image_ok w Hne Hs).
  unfold bind at 1. unfold get_image_height, get_image_dimensions.
  unfold bind at 1. unfold ret at 1. cbn [png_size].
  destruct size as [img_width img_height].
  unfold ret at 1.
  unfold bind at 1. unfold get_y at 1.
  subst page_break h. unfold overflows, placed_height. cbn [fst snd].
  destruct (gt (add (fpdf_get_y E (pdf w))
                    (mul (sub (fpdf_w E) (of_Z 20)) (div img_height img_width)))
               (sub (fpdf_h E) (of_Z 20))).
  - unfold bind at 1. unfold add_page. rewrite (call_pdf_ok _ _ Hn).
    unfold bind at 1. unfold get_y. cbn [pdf cos].
    unfold bind at 1. unfold image. rewrite (call_pdf_ok _ _ Hn). cbn [pdf cos].
    unfold ln. rewrite (call_pdf_ok _ _ Hn). cbn [pdf cos].
    now rewrite <- !app_assoc.
  - unfold bind at 1. unfold ret at 1.
    unfold bind at 1. unfold get_y. cbn [pdf cos].
    unfold bind at 1. unfold image. rewrite (call_pdf_ok _ _ Hn). cbn [pdf cos].
    unfold ln. rewrite (call_pdf_ok _ _ Hn). cbn [pdf cos].
    now rewrite app_nil_r, <- !app_assoc.
Qed.

End RenderFacts.

(** ** Facts about what a failing build leaves behind *)

Section PreservesFacts.

Context {num : Type}.
Variable P : world num -> Prop.

Lemma preserves_ret (A : Type) (a : A) : preserves P (ret a).
Proof. intros w Hw. exact Hw. Qed.

Lemma preserves_raise (A : Type) (e : exn) : preserves P (@raise num A e).
Proof. intros w Hw. exact Hw. Qed.

Lemma preserves_lift (A : Type) (r : result A) : preserves P (lift r).
Proof. intros w Hw. exact Hw. Qed.

Lemma preserves_bind (A B : Type) (m : M num A) (k : A -> M num B) :
  preserves P m -> (forall a, preserves P (k a)) -> preserves P (bind m k).
Proof.
  intros Hm Hk w Hw. unfold bind. specialize (Hm w Hw).
  destruct (m w) as [[a|e] w']; simpl in Hm; [now apply Hk | exact Hm].
Qed.

Lemma preserves_try_except (A : Type) (m : M num A) (h : exn -> M num A) :
  preserves P m -> (forall e, preserves P (h e)) -> preserves P (try_except m h).
Proof.
  intros Hm Hh w Hw. unfold try_except. specialize (Hm w Hw).
  destruct (m w) as [[a|e] w']; simpl in Hm; [exact Hm | now apply Hh].
Qed.

Lemma preserves_ext (A : Type) (m m' : M num A) :
  (forall w, m w = m' w) -> preserves P m' -> preserves P m.
Proof. intros Heq Hm w Hw. rewrite Heq. now apply Hm. Qed.

Lemma preserves_for_each (A S : Type) (f : A -> S -> M num S) (xs : list A) :
  (forall x s, preserves P (f x s)) -> forall s, preserves P (for_each f xs s).
Proof.
  intros Hf. induction xs as [|x xs IH]; intros s; simpl.
  - apply preserves_ret.
  - apply preserves_bind; [apply Hf | exact IH].
Qed.

Lemma fails_bind_l (A B : Type) (m : M num A) (k : A -> M num B) :
  fails P m -> fails P (bind m k).
Proof.
  intros Hm w Hw. destruct (Hm w Hw) as [e [w' [Heq Hw']]].
  exists e, w'. unfold bind. now rewrite Heq.
Qed.

Lemma fails_bind_r (A B : Type) (m : M num A) (k : A -> M num B) :
  preserves P m -> (forall a, fails P (k a)) -> fails P (bind m k).
Proof.
  intros Hm Hk w Hw. unfold bind. specialize (Hm w Hw).
  destruct (m w) as [[a|e] w']; simpl in Hm.
  - now apply Hk.
  - now exists e, w'.
Qed.

Lemma fails_try_reraise (A : Type) (m : M num A) :
  fails P m -> fails P (try_except m (fun e => raise e)).
Proof.
  intros Hm w Hw. rewrite try_except_reraise. now apply Hm.
Qed.

Lemma fails_ext (A : Type) (m m' : M num A) :
  (forall w, m w = m' w) -> fails P m' -> fails P m.
Proof. intros Heq Hm w Hw. rewrite Heq. now apply Hm. Qed.

Lemma fails_for_each (A S : Type) (f : A -> S -> M num S) (xs : list A) (x : A) :
  (forall y s, preserves P (f y s)) ->
  In x xs ->
  (forall s, fails P (f x s)) ->
  forall s, fails P (for_each f xs s).
Proof.
  intros Hf Hin Hx. induction xs as [|y ys IH]; intros s; [contradiction|].
  simpl. destruct Hin as [->|Hin].
  - apply fails_bind_l, Hx.
  - apply fails_bind_r; [apply Hf | intros s'; now apply IH].
Qed.

End PreservesFacts.

Section QuietFacts.

Context {num : Type} `{Number num}.
Variable E : external num.
Variable c0 : list cos_call.

Lemma no_output_snoc (calls : list (pdf_call num)) (c : pdf_call num) :
  no_output calls -> is_Output c = false -> no_output (calls ++ [c]).
Proof.
  unfold no_output. intros Hc Ho. rewrite existsb_app, Hc. simpl. now rewrite Ho.
Qed.

Lemma quiet_call_pdf (c : pdf_call num) :
  is_Output c = false -> preserves (quiet c0) (call_pdf E c).
Proof.
  intros Ho w [Hcos Hout]. unfold call_pdf.
  destruct (fpdf_raises E (pdf w) c); simpl; [now split|].
  split; [exact Hcos | now apply no_output_snoc].
Qed.

Lemma quiet_get_y : preserves (quiet c0) (get_y E).
Proof. intros w Hw. exact Hw. Qed.

Lemma quiet_create_dynamic_table_image (data : grid) :
  preserves (quiet c0) (create_dynamic_table_image E data).
Proof.
  unfold create_dynamic_table_image.
  apply preserves_try_except; [|intros e; apply preserves_raise].
  destruct (negb (truthy data)); [apply preserves_ret|].
  apply preserves_bind; [apply preserves_lift | intros a; apply preserves_ret].
Qed.

Lemma quiet_get_image_height (file : option (png num)) (width : num) :
  preserves (quiet c0) (get_image_height file width).
Proof.
  unfold get_image_height, get_image_dimensions.
  apply preserves_bind.
  - destruct file; [apply preserves_ret | apply preserves_raise].
  - intros [iw ih]. apply preserves_ret.
Qed.

Lemma quiet_render_table (markdown : str) :
  preserves (quiet c0) (render_table E markdown).
Proof.
  unfold render_table.
  apply preserves_try_except; [|intros e; apply preserves_raise].
  apply preserves_bind; [apply preserves_lift | intros g].
  apply preserves_bind; [apply quiet_create_dynamic_table_image | intros file].
  apply preserves_bind; [apply quiet_get_image_height | intros h].
  apply preserves_bind; [apply quiet_get_y | intros y].
  apply preserves_bind.
  { destruct (gt _ _); [now apply quiet_call_pdf | apply preserves_ret]. }
  intros _. apply preserves_bind; [apply quiet_get_y | intros y'].
  apply preserves_bind.
  { destruct file; [now apply quiet_call_pdf | apply preserves_raise]. }
  intros _. now apply quiet_call_pdf.
Qed.

Lemma quiet_flush_run (r : run) : preserves (quiet c0) (flush_run E r).
Proof.
  destruct r as [ls|ls]; simpl.
  - apply preserves_bind; [now apply quiet_call_pdf | intros _; now apply quiet_call_pdf].
  - apply preserves_bind; [apply quiet_render_table | intros _; now apply quiet_call_pdf].
Qed.

Lemma quiet_render_runs (rs : list run) : preserves (quiet c0) (render_runs E rs).
Proof.
  induction rs as [|r rs IH]; simpl.
  - apply preserves_ret.
  - apply preserves_bind; [apply quiet_flush_run | intros _; exact IH].
Qed.

Lemma quiet_render_content (content : str) :
  preserves (quiet c0) (render_content E content).
Proof.
  apply preserves_ext with (m' := render_runs E (runs (body_lines content)));
    [apply render_content_runs | apply quiet_render_runs].
Qed.

Lemma quiet_add_section (title content : str) (is_disclaimer : bool) :
  preserves (quiet c0) (add_section E title content is_disclaimer).
Proof.
  unfold add_section.
  apply preserves_try_except; [|intros e; apply preserves_raise].
  apply preserves_bind.
  { destruct is_disclaimer;
      (apply preserves_bind; [now apply quiet_call_pdf | intros _; now apply quiet_call_pdf]). }
  intros _. apply preserves_bind; [now apply quiet_call_pdf | intros _].
  apply preserves_bind; [now apply quiet_call_pdf | intros _].
  apply preserves_bind.
  { destruct (negb is_disclaimer); [|apply preserves_ret].
    apply preserves_bind; [now apply quiet_call_pdf | intros _; now apply quiet_call_pdf]. }
  intros _. apply preserves_bind; [apply quiet_render_content | intros _].
  now apply quiet_call_pdf.
Qed.

(** A table run that does not parse makes the rendering of the runs raise. *)
Lemma fails_render_runs (rs : list run) (ls : list str) (e : exn) :
  In (TableRun ls) rs ->
  parse_markdown_table (table_text ls) = Raise e ->
  fails (quiet c0) (render_runs E rs).
Proof.
  intros Hin Hp. induction rs as [|r rs IH]; [contradiction|].
  simpl. destruct Hin as [->|Hin].
  - apply fails_bind_l. simpl. apply fails_bind_l.
    intros w Hw. exists e, w. split; [now apply render_table_parse_error | exact Hw].
  - apply fails_bind_r; [apply quiet_flush_run | intros _; now apply IH].
Qed.

Lemma in_table_blocks (content block : str) :
  In block (table_blocks content) ->
  exists ls, In (TableRun ls) (runs (body_lines content)) /\ block = table_text ls.
Proof.
  unfold table_blocks. intros Hin. apply in_flat_map in Hin.
  destruct Hin as [[ls|ls] [Hr Hb]]; [contradiction|].
  destruct Hb as [<-|[]]. now exists ls.
Qed.

Lemma fails_render_content (content block : str) (e : exn) :
  In block (table_blocks content) ->
  parse_markdown_table block = Raise e ->
  fails (quiet c0) (render_content E content).
Proof.
  intros Hin Hp. destruct (in_table_blocks _ _ Hin) as [ls [Hr ->]].
  apply fails_ext with (m' := render_runs E (runs (body_lines content)));
    [apply render_content_runs | now apply fails_render_runs with (ls := ls) (e := e)].
Qed.

Lemma fails_add_section (title content block : str) (d : bool) (e : exn) :
  In block (table_blocks content) ->
  parse_markdown_table block = Raise e ->
  fails (quiet c0) (add_section E title content d).
Proof.
  intros Hin Hp. unfold add_section. apply fails_try_reraise.
  apply fails_bind_r.
  { destruct d;
      (apply preserves_bind; [now apply quiet_call_pdf | intros _; now apply quiet_call_pdf]). }
  intros _. apply fails_bind_r; [now apply quiet_call_pdf | intros _].
  apply fails_bind_r; [now apply quiet_call_pdf | intros _].
  apply fails_bind_r.
  { destruct (negb d); [|apply preserves_ret].
    apply preserves_bind; [now apply quiet_call_pdf | intros _; now apply quiet_call_pdf]. }
  intros _. apply fails_bind_l.
  now apply fails_render_content with (block := block) (e := e).
Qed.

End QuietFacts.

(** ** Facts about the route *)

Section RouteFacts.

Context {num : Type} `{Number num}.
Variable E : external num.

Lemma bind_ok (A B : Type) (m : M num A) (k : A -> M num B) (a : A) w w' :
  m w = (Ok a, w') -> bind m k w = k a w'.
Proof. intros Hm. unfold bind. now rewrite Hm. Qed.

Lemma bind_raise (A B : Type) (m : M num A) (k : A -> M num B) (e : exn) w w' :
  m w = (Raise e, w') -> bind m k w = (Raise e, w').
Proof. intros Hm. unfold bind. now rewrite Hm. Qed.

Lemma quiet_StyledPDF w : quiet (cos w) (snd (StyledPDF E w)).
Proof.
  unfold StyledPDF. unfold bind at 1.
  match goal with
  | |- quiet _ (snd (?m ?w0)) =>
      assert (Hp : preserves (quiet (cos w)) m); [|apply Hp; now split]
  end.
  apply preserves_try_except; [|intros e; apply preserves_raise].
  repeat (apply preserves_bind; [now apply quiet_call_pdf | intros _]).
  now apply quiet_call_pdf.
Qed.

(** A table block that does not parse, in any section of the request,
    makes the route answer with an error, with nothing stored and no
    document bytes asked for. *)
Lemma generate_pdf_aborts (body : GeneratePDFRequest) (api_key : str)
    (content block : str) (e : exn) w :
  In content (map snd (dict body)) ->
  In block (table_blocks content) ->
  parse_markdown_table block = Raise e ->
  exists e1 w',
    generate_pdf E body api_key w
    = (Raise (HTTPException 500 (py "Error generating PDF: " ++ exn_str E e1)), w')
    /\ quiet (cos w) w'.
Proof.
  intros Hc Hb Hp.
  apply in_map_iff in Hc. destruct Hc as [[field content'] [Hsnd Hitem]].
  simpl in Hsnd. subst content'.
  unfold generate_pdf.
  match goal with
  | |- context [try_except ?m ?h] => set (build := m); set (handler := h)
  end.
  assert (Hbuild : exists e1 w1, build w = (Raise e1, w1) /\ quiet (cos w) w1).
  { subst build. unfold bind at 1.
    generalize (quiet_StyledPDF w).
    destruct (StyledPDF E w) as [[[]|e1] w1]; cbn [snd]; intros Hq;
      [|now exists e1, w1].
    revert w1 Hq.
    match goal with
    | |- forall w1, _ -> exists e1 w2, ?m w1 = _ /\ _ =>
        change (fails (quiet (cos w)) m)
    end.
    apply fails_bind_r; [now apply quiet_call_pdf | intros _].
    apply fails_bind_r.
    { apply preserves_for_each. intros [t c] s. apply quiet_add_section. }
    intros _. apply fails_bind_l.
    apply fails_for_each with (x := (field, content)).
    - intros [t c] s. apply quiet_add_section.
    - exact Hitem.
    - intros s. now apply fails_add_section with (block := block) (e := e). }
  destruct Hbuild as [e1 [w1 [Hb1 Hq]]].
  exists e1, w1. split; [|exact Hq].
  unfold try_except. rewrite Hb1. reflexivity.
Qed.

Lemma elements_app (l l' : list (pdf_call num)) :
  elements (l ++ l') = elements l ++ elements l'.
Proof. unfold elements. apply flat_map_app. Qed.

(** With reliable libraries a run is drawn as its element, and a table
    run that does not parse raises the parser's exception. *)
Lemma flush_run_reliable (r : run) w :
  reliable E ->
  match block_of_run r with
  | Ok b => exists w', flush_run E r w = (Ok tt, w')
                       /\ elements (pdf w') = elements (pdf w) ++ [b]
  | Raise e => flush_run E r w = (Raise e, w)
  end.
Proof.
  intros [Hn Hs]. destruct r as [ls|ls]; simpl.
  - eexists. split.
    + unfold multi_cell, ln.
      rewrite (bind_ok _ _ _ (call_pdf_ok _ w Hn)). apply (call_pdf_ok _ _ Hn).
    + cbn [pdf]. rewrite !elements_app. simpl. now rewrite app_nil_r.
  - destruct (parse_markdown_table (table_text ls)) as [g|e] eqn:Hp.
    + destruct (Hs (fig_width (clean_table_data g)) (fig_height (clean_table_data g))
                   (clean_table_data g)) as [size Hsize].
      pose proof (render_table_calls _ w Hp Hsize Hn) as Hrt. cbv zeta in Hrt.
      eexists. split.
      * rewrite (bind_ok _ _ _ Hrt).
        unfold ln. apply (call_pdf_ok _ _ Hn).
      * cbn [pdf]. rewrite !elements_app.
        destruct (overflows E (fpdf_get_y E (pdf w)) (placed_height E size));
          simpl; now rewrite ?app_nil_r.
    + apply bind_raise. now apply render_table_parse_error.
Qed.

Lemma render_runs_reliable (rs : list run) :
  reliable E ->
  forall w,
    match blocks rs with
    | Ok bs => exists w', render_runs E rs w = (Ok tt, w')
                          /\ elements (pdf w') = elements (pdf w) ++ bs
    | Raise e => exists w', render_runs E rs w = (Raise e, w')
    end.
Proof.
  intros Hr. induction rs as [|r rs IH]; intros w.
  - simpl. exists w. split; [reflexivity | now rewrite app_nil_r].
  - simpl. generalize (flush_run_reliable r w Hr).
    destruct (block_of_run r) as [b|e].
    + intros [w1 [Hf He]]. rewrite (bind_ok _ _ _ Hf).
      specialize (IH w1). destruct (blocks rs) as [bs|e].
      * destruct IH as [w2 [Hr2 He2]]. exists w2. split; [exact Hr2|].
        rewrite He2, He, <- app_assoc. reflexivity.
      * exact IH.
    + intros Hf. exists w. now apply bind_raise.
Qed.

Lemma add_section_reliable (title content : str) (d : bool) w :
  reliable E ->
  match blocks (runs (body_lines content)) with
  | Ok _ => exists w', add_section E title content d w = (Ok tt, w')
  | Raise e => exists w', add_section E title content d w = (Raise e, w')
  end.
Proof.
  intros Hr. assert (Hn : never_raises E) by apply Hr.
  unfold add_section. rewrite try_except_reraise.
  unfold set_text_color, set_font, cell, ln.
  assert (Hstep : forall (c : pdf_call num) (k : unit -> M num unit) w0,
             bind (call_pdf E c) k w0
             = k tt {| pdf := pdf w0 ++ [c]; cos := cos w0 |}).
  { intros c k w0. apply bind_ok. now apply call_pdf_ok. }
  assert (Hlast : forall w0,
             match blocks (runs (body_lines content)) with
             | Ok _ => exists w', bind (render_content E content)
                                   (fun _ => call_pdf E (Ln (of_Z 5))) w0 = (Ok tt, w')
             | Raise e => exists w', bind (render_content E content)
                                   (fun _ => call_pdf E (Ln (of_Z 5))) w0 = (Raise e, w')
             end).
  { intros w0. generalize (render_runs_reliable (runs (body_lines content)) Hr w0).
    destruct (blocks (runs (body_lines content))) as [bs|e].
    - intros [w1 [Hrun _]]. eexists.
      rewrite (bind_ok _ _ _ (eq_trans (render_content_runs E content w0) Hrun)).
      now apply call_pdf_ok.
    - intros [w1 Hrun]. exists w1.
      apply bind_raise. now rewrite render_content_runs. }
  destruct d; cbn [negb].
  - rewrite bind_assoc, Hstep, Hstep, Hstep, Hstep. unfold bind at 1, ret at 1.
    apply Hlast.
  - rewrite bind_assoc, Hstep, Hstep, Hstep, Hstep, bind_assoc, Hstep, Hstep.
    apply Hlast.
Qed.

Lemma sections_reliable (items : list (str * str)) (fmt : str -> str) :
  reliable E ->
  forall w,
    match first_error (map snd items) with
    | None =>
        exists w',
          for_each (fun (item : str * str) (_ : unit) =>
                      let '(field, content) := item in
                      add_section E (fmt field) content false) items tt w
          = (Ok tt, w')
    | Some e =>
        exists w',
          for_each (fun (item : str * str) (_ : unit) =>
                      let '(field, content) := item in
                      add_section E (fmt field) content false) items tt w
          = (Raise e, w')
    end.
Proof.
  intros Hr. induction items as [|[field content] items IH]; intros w.
  - simpl. now exists w.
  - cbn [map snd first_error]. rewrite for_each_cons.
    generalize (add_section_reliable (fmt field) content false w Hr).
    destruct (blocks (runs (body_lines content))) as [bs|e].
    + intros [w1 Hs]. rewrite (bind_ok _ _ _ Hs). apply IH.
    + intros [w1 Hs]. exists w1. now apply bind_raise.
Qed.

Lemma StyledPDF_reliable w :
  reliable E -> exists w', StyledPDF E w = (Ok tt, w').
Proof.
  intros [Hn _]. unfold StyledPDF. unfold bind at 1.
  rewrite try_except_reraise. unfold add_font.
  eexists.
  rewrite (bind_ok _ _ _ (call_pdf_ok _ _ Hn)).
  rewrite (bind_ok _ _ _ (call_pdf_ok _ _ Hn)).
  rewrite (bind_ok _ _ _ (call_pdf_ok _ _ Hn)).
  now apply call_pdf_ok.
Qed.

Lemma first_error_fixed_content : first_error (map snd fixed_content) = None.
Proof. vm_compute. reflexivity. Qed.

(** With reliable libraries the error of the first table that does not
    parse reaches the top of the route as it was raised. *)
Lemma generate_pdf_reliable (body : GeneratePDFRequest) (api_key : str) (e : exn) w :
  reliable E ->
  first_error (map snd (dict body)) = Some e ->
  fst (generate_pdf E body api_key w)
  = Raise (HTTPException 500 (py "Error generating PDF: " ++ exn_str E e)).
Proof.
  intros Hr Hfirst. assert (Hn : never_raises E) by apply Hr.
  unfold generate_pdf.
  match goal with
  | |- context [try_except ?m ?h] => set (build := m); set (handler := h)
  end.
  assert (Hbuild : exists w1, build w = (Raise e, w1)).
  { subst build.
    destruct (StyledPDF_reliable w Hr) as [w1 Hs]. rewrite (bind_ok _ _ _ Hs).
    unfold add_page. rewrite (bind_ok _ _ _ (call_pdf_ok _ _ Hn)).
    generalize (sections_reliable fixed_content (fun t => t) Hr
                  {| pdf := pdf w1 ++ [AddPage]; cos := cos w1 |}).
    rewrite first_error_fixed_content. intros [w2 Hfixed].
    rewrite (bind_ok _ _ _ Hfixed).
    generalize (sections_reliable (dict body)
                  (fun field => title (replace "_" " " field)) Hr w2).
    rewrite Hfirst. intros [w3 Huser].
    exists w3. now apply bind_raise. }
  destruct Hbuild as [w1 Hb]. unfold try_except. rewrite Hb. reflexivity.
Qed.

Lemma blocks_raise_inv (rs : list run) (e : exn) :
  blocks rs = Raise e ->
  exists ls, In (TableRun ls) rs /\ parse_markdown_table (table_text ls) = Raise e.
Proof.
  induction rs as [|r rs IH]; [discriminate|].
  simpl. destruct r as [ls|ls]; simpl.
  - destruct (blocks rs) as [bs|e']; [discriminate|].
    intros He. injection He as ->.
    destruct (IH eq_refl) as [ls' [Hin Hp]]. exists ls'. split; [now right | exact Hp].
  - destruct (parse_markdown_table (table_text ls)) as [g|e'] eqn:Hp.
    + destruct (blocks rs) as [bs|e'']; [discriminate|].
      intros He. injection He as ->.
      destruct (IH eq_refl) as [ls' [Hin Hp']]. exists ls'. split; [now right | exact Hp'].
    + intros He. injection He as ->. exists ls. split; [now left | exact Hp].
Qed.

Lemma blocks_raise_intro (rs : list run) (ls : list str) (e : exn) :
  In (TableRun ls) rs ->
  parse_markdown_table (table_text ls) = Raise e ->
  exists e', blocks rs = Raise e'.
Proof.
  intros Hin Hp. induction rs as [|r rs IH]; [contradiction|].
  simpl. destruct Hin as [->|Hin].
  - simpl. rewrite Hp. now exists e.
  - destruct (block_of_run r) as [b|e']; [|now exists e'].
    destruct (IH Hin) as [e' ->]. now exists e'.
Qed.

Lemma first_error_intro (contents : list str) (content block : str) (e : exn) :
  In content contents ->
  In block (table_blocks content) ->
  parse_markdown_table block = Raise e ->
  exists e1, first_error contents = Some e1.
Proof.
  intros Hc Hb Hp. induction contents as [|c cs IH]; [contradiction|].
  simpl. destruct Hc as [->|Hc].
  - destruct (in_table_blocks _ _ Hb) as [ls [Hr ->]].
    destruct (blocks_raise_intro _ _ Hr Hp) as [e' ->]. now exists e'.
  - destruct (blocks (runs (body_lines c))) as [bs|e']; [now apply IH | now exists e'].
Qed.

Lemma first_error_inv (contents : list str) (e : exn) :
  first_error contents = Some e ->
  exists content block,
    In content contents /\ In block (table_blocks content)
    /\ parse_markdown_table block = Raise e.
Proof.
  induction contents as [|c cs IH]; [discriminate|].
  simpl. destruct (blocks (runs (body_lines c))) as [bs|e'] eqn:Hb.
  - intros He. destruct (IH He) as [content [block [Hin Hrest]]].
    exists content, block. split; [now right | exact Hrest].
  - intros He. injection He as ->.
    destruct (blocks_raise_inv _ Hb) as [ls [Hin Hp]].
    exists c, (table_text ls). split; [now left|]. split; [|exact Hp].
    unfold table_blocks. apply in_flat_map. exists (TableRun ls).
    split; [exact Hin | now left].
Qed.

End RouteFacts.

(** ** Properties of the table parser and of column cleanup *)

(** C1.  Valid table markup, that is at least three non-blank lines with a
    well-formed separator, parses to one row per line other than the
    separator, header first.  Every row has [max_cols] cells, the widest
    cell count among the header and the data rows: the trimmed cells of
    its line, none dropped, followed by empty strings.  The ragged table
    of the specification parses to the grid the specification gives. *)
Theorem parse_markdown_table_grid :
  (forall markdown header separator d ds,
      nonblank_lines markdown = header :: separator :: d :: ds ->
      separator_ok separator = true ->
      let lines := header :: d :: ds in
      let width := list_max (map (fun line => length (split PIPE line)) lines) in
      exists g,
        parse_markdown_table markdown = Ok g
        /\ length g = S (length (d :: ds))
        /\ (forall row, In row g -> length row = width)
        /\ (forall i line,
               nth_error lines i = Some line ->
               nth_error g i
               = Some (map strip (split PIPE line)
                       ++ repeat [] (width - length (split PIPE line)))))
  /\ parse_markdown_table ragged_table
     = Ok [[py "A"; py "B"]; [py "1"; []]; [[]; py "2"]].
Proof.
  split; [|reflexivity].
  intros markdown header separator d ds Hlines Hsep lines width.
  assert (Hw : width = max_cols lines).
  { unfold width, max_cols, cells. f_equal. apply map_ext.
    intros line. now rewrite length_map. }
  exists (map (fun line => pad (max_cols lines) (cells line)) lines).
  split; [|split; [|split]].
  - rewrite parse_markdown_table_table_grid. unfold table_grid.
    now rewrite Hlines, Hsep.
  - now rewrite length_map.
  - intros row Hin. rewrite Hw.
    destruct (@table_grid_rows header (d :: ds) _ eq_refl) as [_ Hrect].
    unfold rectangular in Hrect. rewrite Forall_forall in Hrect. now apply Hrect.
  - intros i line Hnth. rewrite nth_error_map, Hnth. simpl. f_equal.
    unfold pad, cells. now rewrite Hw, length_map.
Qed.

Lemma parse_markdown_table_grid_witness :
  exists g, parse_markdown_table ragged_table = Ok g /\ length g = 3.
Proof.
  destruct (proj1 parse_markdown_table_grid ragged_table
              (py "A|B") (py "--|--") (py "1|") [py "|2"] eq_refl eq_refl)
    as [g [Hparse [Hlen _]]].
  exists g. split; [exact Hparse | exact Hlen].
Defined.

(** C5.  Markup with fewer than three non-blank lines, after splitting on
    line breaks, trimming each line and discarding the blank ones, does
    not parse: the parser raises its insufficient-rows error.  A header
    and a separator with no data row are such a markup. *)
Theorem parse_markdown_table_too_few_lines (markdown : str) :
  length (nonblank_lines markdown) < 3 ->
  parse_markdown_table markdown = Raise (insufficient_rows markdown).
Proof.
  intros Hlen. rewrite parse_markdown_table_table_grid. unfold table_grid.
  destruct (nonblank_lines markdown) as [|header [|separator [|d ds]]];
    try reflexivity.
  simpl in Hlen. lia.
Qed.

Lemma parse_markdown_table_too_few_lines_witness :
  nonblank_lines header_and_separator = [py "A|B"; py "--|--"]
  /\ parse_markdown_table header_and_separator
     = Raise (insufficient_rows header_and_separator).
Proof.
  split; [reflexivity|].
  apply (parse_markdown_table_too_few_lines header_and_separator).
  vm_compute. lia.
Defined.

(** C6.  With at least three non-blank lines, the parser fails exactly
    when some cell of the second line, split on the pipe and trimmed, is
    neither empty nor made of dashes only; the failure is then the
    separator error.  So a separator whose cells are empty or dashes is
    accepted. *)
Theorem parse_markdown_table_separator (markdown : str) :
  3 <= length (nonblank_lines markdown) ->
  let separator := nth 1 (nonblank_lines markdown) [] in
  ((exists e, parse_markdown_table markdown = Raise e)
   <-> (exists cell, In cell (map strip (split PIPE separator))
                     /\ cell <> []
                     /\ ~ Forall (fun c => c = DASH) cell))
  /\ (forall e, parse_markdown_table markdown = Raise e ->
                e = bad_separator markdown).
Proof.
  intros Hlen separator. subst separator.
  rewrite parse_markdown_table_table_grid. unfold table_grid.
  destruct (nonblank_lines markdown) as [|header [|separator [|d ds]]];
    try (simpl in Hlen; lia).
  change (nth 1 (header :: separator :: d :: ds) []) with separator.
  fold (cells separator). rewrite <- separator_ok_false.
  destruct (separator_ok separator); split.
  - split; [intros [e He]; discriminate | discriminate].
  - intros e He. discriminate.
  - split; [reflexivity | intros _; eexists; reflexivity].
  - intros e He. now injection He as <-.
Qed.

Lemma parse_markdown_table_separator_witness :
  parse_markdown_table bad_separator_table
  = Raise (bad_separator bad_separator_table).
Proof.
  assert (Hlen : 3 <= length (nonblank_lines bad_separator_table))
    by (vm_compute; lia).
  destruct (parse_markdown_table_separator bad_separator_table Hlen) as [Hiff _].
  destruct (parse_markdown_table bad_separator_table) as [g|e] eqn:Hp.
  - exfalso.
    assert (Hex : exists e, @Ok grid g = Raise e); [|destruct Hex; discriminate].
    apply Hiff. exists (py "x-"). split; [|split].
    + vm_compute. right. left. reflexivity.
    + discriminate.
    + intros Hall. inversion Hall. discriminate.
  - f_equal.
    apply (proj2 (parse_markdown_table_separator bad_separator_table Hlen)).
    exact Hp.
Defined.

(** C4.  Column cleanup is idempotent on every grid.  On a grid all of
    whose rows have [w] cells it keeps, in every row and in order, the
    cells of the columns that are not blank in some row, so it drops
    exactly the columns that are blank in every row, header included;
    when every column is blank it returns the grid as it is; and a grid
    with at least one column comes out with at least one column. *)
Theorem clean_table_data_columns (g : grid) :
  clean_table_data (clean_table_data g) = clean_table_data g
  /\ (forall w, rectangular w g ->
        ((exists j, j < w /\ blank_column g j = false) ->
         clean_table_data g
         = map (fun row =>
                  map (fun j => nth j row [])
                      (filter (fun j => negb (blank_column g j)) (seq 0 w)))
               g)
        /\ ((forall j, j < w -> blank_column g j = true) ->
            clean_table_data g = g)
        /\ (1 <= w -> forall row, In row (clean_table_data g) -> 1 <= length row)).
Proof.
  split; [apply clean_table_data_idempotent|].
  intros w Hrect.
  destruct g as [|r0 g0].
  { split; [|split].
    - intros [j [_ Hb]]. discriminate Hb.
    - reflexivity.
    - intros _ row []. }
  assert (Hg : r0 :: g0 <> []) by discriminate.
  set (g := r0 :: g0) in *.
  split; [|split].
  - intros [j [Hj Hb]]. rewrite (clean_table_data_rectangular Hg Hrect).
    fold (kept_columns g w).
    assert (Hin : In j (kept_columns g w)).
    { apply filter_In. split; [apply in_seq; lia | now rewrite Hb]. }
    destruct (kept_columns g w); [contradiction | reflexivity].
  - intros Hall. rewrite (clean_table_data_rectangular Hg Hrect).
    assert (Hk : kept_columns g w = []).
    { unfold kept_columns.
      destruct (filter (fun j => negb (blank_column g j)) (seq 0 w)) as [|j js] eqn:Hf;
        [reflexivity|].
      assert (Hin : In j (filter (fun j => negb (blank_column g j)) (seq 0 w)))
        by (rewrite Hf; now left).
      apply filter_In in Hin. destruct Hin as [Hseq Hnb].
      apply in_seq in Hseq. rewrite Hall in Hnb by lia. discriminate. }
    now rewrite Hk.
  - intros Hw. exact (clean_table_data_width Hg Hrect Hw).
Qed.

Lemma clean_table_data_columns_witness :
  clean_table_data blank_middle = [[py "A"; py "B"]; [py "1"; py "2"]].
Proof.
  assert (Hrect : rectangular 3 blank_middle)
    by (repeat constructor).
  destruct (proj2 (clean_table_data_columns blank_middle) 3 Hrect) as [Hdrop _].
  rewrite Hdrop; [reflexivity|].
  exists 0. split; [lia | reflexivity].
Defined.

(** C9.  A grid returned by the parser has at least two rows and at least
    one column, and so has the grid after column cleanup; the rasterizer
    never takes its early return on it. *)
Theorem pipeline_grid_not_empty (markdown : str) (g : grid) :
  parse_markdown_table markdown = Ok g ->
  2 <= length g
  /\ (forall row, In row g -> 1 <= length row)
  /\ 2 <= length (clean_table_data g)
  /\ (forall row, In row (clean_table_data g) -> 1 <= length row)
  /\ negb (truthy (clean_table_data g)) = false
  /\ (forall num (N : Number num) (E : external num) (w : world num),
         fst (create_dynamic_table_image E (clean_table_data g) w) <> Ok None).
Proof.
  intros Hp. destruct (parsed_clean_not_empty _ Hp) as [H1 [H2 [H3 H4]]].
  repeat (split; [assumption|]).
  assert (Hne : clean_table_data g <> [])
    by (destruct (clean_table_data g); [simpl in H3; lia | discriminate]).
  split.
  - destruct (clean_table_data g); [congruence | reflexivity].
  - intros num N E w. unfold create_dynamic_table_image.
    rewrite try_except_reraise.
    destruct (clean_table_data g) as [|r rs]; [congruence|]. cbn [truthy negb].
    unfold bind, lift, ret.
    destruct (savefig E _ _ _); simpl; discriminate.
Qed.

Lemma pipeline_grid_not_empty_witness :
  2 <= length (clean_table_data [[py "A"; py "B"]; [py "1"; py "2"]]).
Proof.
  apply (pipeline_grid_not_empty small_table (g := [[py "A"; py "B"]; [py "1"; py "2"]])).
  reflexivity.
Defined.

(** ** Properties of the content renderer *)

Lemma sample_external_reliable : reliable sample_external.
Proof.
  split.
  - intros calls c. reflexivity.
  - intros fw fh g. eexists. reflexivity.
Qed.

(** C2.  The content renderer flushes the body run by run: the runs
    partition the lines in order, every run holds lines of one
    classification only (table lines contain the pipe, prose lines do
    not), neighbouring runs differ in classification, and rendering the
    body is flushing the runs one after the other.  With libraries that
    do not raise, the elements drawn are the elements of the runs in that
    order, or the rendering raises the error of the first table that does
    not parse.  The body of the specification draws its first text, then
    the image of the table, then its last text. *)
Theorem render_content_order :
  (forall lines,
      concat (map run_lines (runs lines)) = lines
      /\ Forall homogeneous (runs lines)
      /\ alternating (runs lines))
  /\ (forall num (N : Number num) (E : external num) content w,
         render_content E content w = render_runs E (runs (body_lines content)) w)
  /\ (forall num (N : Number num) (E : external num) content w,
         reliable E ->
         match blocks (runs (body_lines content)) with
         | Ok bs =>
             exists w', render_content E content w = (Ok tt, w')
                        /\ elements (pdf w') = elements (pdf w) ++ bs
         | Raise e => exists w', render_content E content w = (Raise e, w')
         end)
  /\ (forall num (N : Number num) (E : external num) w,
         reliable E ->
         exists w',
           render_content E summary_body w = (Ok tt, w')
           /\ elements (pdf w')
              = elements (pdf w)
                ++ [ProseBlock (py "Summary line.");
                    TableImage [[py "A"; py "B"]; [py "1"; py "2"]];
                    ProseBlock (py "More text.")]).
Proof.
  assert (Hgen : forall num (N : Number num) (E : external num) content w,
             reliable E ->
             match blocks (runs (body_lines content)) with
             | Ok bs =>
                 exists w', render_content E content w = (Ok tt, w')
                            /\ elements (pdf w') = elements (pdf w) ++ bs
             | Raise e => exists w', render_content E content w = (Raise e, w')
             end).
  { intros num N E content w Hr.
    generalize (render_runs_reliable (runs (body_lines content)) Hr w).
    destruct (blocks (runs (body_lines content))) as [bs|e];
      intros [w' Hw']; exists w'; now rewrite render_content_runs. }
  split; [|split; [|split]].
  - intros lines. split; [apply runs_lines|].
    split; [apply runs_homogeneous | apply runs_alternating].
  - intros num N E content w. apply render_content_runs.
  - exact Hgen.
  - intros num N E w Hr. exact (Hgen num N E summary_body w Hr).
Qed.

Lemma render_content_order_witness :
  exists w',
    render_content sample_external summary_body empty_world = (Ok tt, w')
    /\ elements (pdf w')
       = [ProseBlock (py "Summary line.");
          TableImage [[py "A"; py "B"]; [py "1"; py "2"]];
          ProseBlock (py "More text.")].
Proof.
  exact (proj2 (proj2 (proj2 render_content_order)) Q Number_Q sample_external
           empty_world sample_external_reliable).
Defined.

(** C3.  For a table that parses, with a rasterizer that writes the figure
    and a document that accepts the calls, [render_table] starts a new
    page before the image exactly when the cursor plus the height of the
    image exceeds the page height minus 20, and the image is placed at
    the cursor read after that.  A body without table lines is drawn as
    one text block and a line break, whatever the cursor: no page is
    started for prose. *)
Theorem render_table_page_break :
  (forall num (N : Number num) (E : external num) markdown g size w,
      parse_markdown_table markdown = Ok g ->
      savefig E (fig_width (clean_table_data g)) (fig_height (clean_table_data g))
              (clean_table_data g) = Ok size ->
      never_raises E ->
      let file := {| png_data := clean_table_data g; png_size := size |} in
      let width := sub (fpdf_w E) (of_Z 20) in
      let h := mul width (div (snd size) (fst size)) in
      let y := fpdf_get_y E (pdf w) in
      exists new,
        render_table E markdown w = (Ok tt, {| pdf := pdf w ++ new; cos := cos w |})
        /\ (In AddPage new <-> gt (add y h) (sub (fpdf_h E) (of_Z 20)) = true)
        /\ new = if gt (add y h) (sub (fpdf_h E) (of_Z 20))
                 then [AddPage;
                       Image file 10 (fpdf_get_y E (pdf w ++ [AddPage])) width;
                       Ln (add h (of_Z 5))]
                 else [Image file 10 y width; Ln (add h (of_Z 5))])
  /\ (forall num (N : Number num) (E : external num) content w,
         never_raises E ->
         (forall line, In line (body_lines content) -> contains PIPE line = false) ->
         render_content E content w
         = (Ok tt,
            {| pdf := pdf w ++ [MultiCell 0 8 (strip (join [LF] (body_lines content)));
                                Ln (of_Z 5)];
               cos := cos w |})).
Proof.
  split.
  - intros num N E markdown g size w Hp Hs Hn file width h y.
    pose proof (render_table_calls _ w Hp Hs Hn) as Hrt. cbv zeta in Hrt.
    unfold overflows, placed_height in Hrt.
    fold file in Hrt. fold width in Hrt. fold h in Hrt. fold y in Hrt.
    destruct (gt (add y h) (sub (fpdf_h E) (of_Z 20))) eqn:Hgt.
    + eexists. split; [exact Hrt|]. split.
      * split; [reflexivity | intros _; now left].
      * reflexivity.
    + eexists. split; [exact Hrt|]. split.
      * split; [|discriminate].
        rewrite app_nil_r. simpl.
        intros [Hi|[Hl|[]]]; discriminate.
      * now rewrite app_nil_r.
  - intros num N E content w Hn Hall.
    rewrite render_content_runs. unfold body_lines in *.
    rewrite (runs_all_prose (split_not_nil LF (strip content)) Hall).
    simpl. rewrite bind_unit_ret_r. unfold multi_cell, ln, prose_text.
    rewrite (bind_ok _ _ _ (call_pdf_ok _ w Hn)).
    rewrite (call_pdf_ok _ _ Hn). cbn [pdf cos].
    now rewrite <- app_assoc.
Qed.

Lemma render_table_page_break_witness :
  exists new,
    render_table sample_external small_table low_on_page
    = (Ok tt, {| pdf := pdf low_on_page ++ new; cos := cos low_on_page |})
    /\ In AddPage new.
Proof.
  destruct (proj1 render_table_page_break Q Number_Q sample_external small_table
              [[py "A"; py "B"]; [py "1"; py "2"]] ((600 # 1)%Q, (300 # 1)%Q)
              low_on_page eq_refl eq_refl (proj1 sample_external_reliable))
    as [new [Hrun [Hiff _]]].
  exists new. split; [exact Hrun|].
  apply Hiff. reflexivity.
Defined.

(** ** Properties of the route *)

(** A request whose tables parse is built, stored and answered with the
    link, in the sample environment. *)
Example good_request_is_stored :
  let r := generate_pdf sample_external good_request (py "default_key") empty_world in
  fst r = Ok {| message := py "PDF generated successfully";
                file_url := py "https://example.invalid/report.pdf" |}
  /\ cos (snd r)
     = [PutObject (py "bucket") (py "Portfolio_Optimization_Report_0000.pdf")
                  (py "%PDF") (py "application/pdf");
        GeneratePresignedUrl (py "bucket")
                  (py "Portfolio_Optimization_Report_0000.pdf") 432000].
Proof. vm_compute. split; reflexivity. Qed.

(** C7.  When a table block of a section of the request does not parse,
    [render_table] raises the parser's exception as it is, and the route
    ends with its error response whatever the libraries do: the document
    bytes are never asked for and nothing is sent to the storage.  With
    libraries that do not raise, the response carries the message of a
    table-parse error of the request, unchanged. *)
Theorem malformed_table_aborts_build
    (num : Type) (N : Number num) (E : external num)
    (body : GeneratePDFRequest) (api_key content block : str) (e : exn)
    (w : world num) :
  In content (map snd (dict body)) ->
  In block (table_blocks content) ->
  parse_markdown_table block = Raise e ->
  (forall w0, render_table E block w0 = (Raise e, w0))
  /\ (exists detail w',
         generate_pdf E body api_key w = (Raise (HTTPException 500 detail), w')
         /\ cos w' = cos w
         /\ no_output (pdf w'))
  /\ (reliable E ->
      exists content1 block1 msg,
        In content1 (map snd (dict body))
        /\ In block1 (table_blocks content1)
        /\ parse_markdown_table block1 = Raise (ValueError msg)
        /\ fst (generate_pdf E body api_key w)
           = Raise (HTTPException 500 (py "Error generating PDF: " ++ msg))).
Proof.
  intros Hc Hb Hp. split; [|split].
  - intros w0. now apply render_table_parse_error.
  - destruct (@generate_pdf_aborts num N E body api_key content block e w Hc Hb Hp)
      as [e1 [w' [Hgen [Hcos Hout]]]].
    now exists (py "Error generating PDF: " ++ exn_str E e1), w'.
  - intros Hr.
    assert (Hex : exists e1, first_error (map snd (dict body)) = Some e1)
      by (eapply first_error_intro; eassumption).
    destruct Hex as [e1 Hfirst].
    assert (Hinv := Hfirst). apply first_error_inv in Hinv.
    destruct Hinv as [content1 [block1 [Hc1 [Hb1 Hp1]]]].
    assert (Hv : exists msg, e1 = ValueError msg).
    { revert Hp1. rewrite parse_markdown_table_table_grid. unfold table_grid.
      destruct (nonblank_lines block1) as [|h [|sp [|d ds]]];
        try (intros Heq; injection Heq as <-; eexists; reflexivity).
      destruct (separator_ok sp); [discriminate|].
      intros Heq; injection Heq as <-; eexists; reflexivity. }
    destruct Hv as [msg ->].
    exists content1, block1, msg. repeat (split; [assumption|]).
    change msg with (exn_str E (ValueError msg)).
    now apply generate_pdf_reliable.
Qed.

Lemma malformed_table_aborts_build_witness :
  exists detail w',
    generate_pdf sample_external sample_request (py "default_key") empty_world
    = (Raise (HTTPException 500 detail), w')
    /\ cos w' = []
    /\ no_output (pdf w').
Proof.
  refine (proj1 (proj2 (@malformed_table_aborts_build Q Number_Q sample_external
            sample_request (py "default_key") (py "a|b") (py "a|b")
            (insufficient_rows (py "a|b")) empty_world _ _ _))).
  - simpl. do 3 right. left. reflexivity.
  - vm_compute. left. reflexivity.
  - reflexivity.
Defined.

(** C8.  A request whose key header is missing or is not the configured
    key is answered with the unauthorized error, and the world is left as
    it was: no call on a document, no call on the storage. *)
Theorem unauthorized_request_rejected
    (num : Type) (N : Number num) (E : external num)
    (environ : str -> option str) (header : option str)
    (body : GeneratePDFRequest) (w : world num) :
  header <> Some (API_KEY environ) ->
  post_generate_pdf E environ header body w
  = (Raise (HTTPException 401 (py "Invalid or missing API Key")), w).
Proof.
  intros Hh. unfold post_generate_pdf, get_api_key, api_key_header.
  destruct header as [[|c k]|]; [reflexivity | | reflexivity].
  cbn [truthy]. unfold str_eqb.
  destruct (list_eq_dec ascii_dec (c :: k) (API_KEY environ)) as [Heq|Hne].
  - congruence.
  - reflexivity.
Qed.

Lemma unauthorized_request_rejected_witness :
  post_generate_pdf sample_external no_environ (Some (py "wrong")) sample_request
                    empty_world
  = (Raise (HTTPException 401 (py "Invalid or missing API Key")), empty_world).
Proof.
  apply (@unauthorized_request_rejected Q Number_Q sample_external no_environ
           (Some (py "wrong")) sample_request empty_world).
  discriminate.
Defined.

Lemma get_api_key_accepts (environ : str -> option str) :
  API_KEY environ <> [] ->
  get_api_key environ (api_key_header (Some (API_KEY environ))) = Ok (API_KEY environ).
Proof.
  intros Hne. unfold api_key_header, get_api_key.
  destruct (API_KEY environ) as [|c k] eqn:Hk; [congruence|].
  cbn [truthy]. unfold str_eqb.
  destruct (list_eq_dec ascii_dec (c :: k) (c :: k)); [reflexivity | congruence].
Qed.

Lemma get_api_key_rejects (environ : str -> option str) (header : option str) :
  header = None \/ header = Some [] \/ header <> Some (API_KEY environ) ->
  get_api_key environ (api_key_header header) = Raise unauthorized.
Proof.
  unfold api_key_header, get_api_key.
  destruct header as [[|c k]|]; try reflexivity.
  cbn [truthy]. unfold str_eqb.
  destruct (list_eq_dec ascii_dec (c :: k) (API_KEY environ)) as [Heq|Hne];
    [|reflexivity].
  intros [Hn|[He|Hd]]; [discriminate | discriminate | congruence].
Qed.

(** The request the specification's wording gets wrong: the variable is
    set to the empty string and the header is present and empty.  The
    header is equal to the configured key, and the route rejects it. *)
Lemma api_key_empty_header_counterexample :
  ~ (fst (post_generate_pdf sample_external empty_key_environ (Some [])
                            good_request empty_world)
     = Raise unauthorized
     <-> Some [] <> Some (API_KEY empty_key_environ)).
Proof.
  intros [Hrej _]. apply Hrej; reflexivity.
Qed.

(** C10, as amended.  Without the environment variable the configured key
    is [default_key], and with it the configured key is its value.  A
    request is rejected with the unauthorized error, the world left as it
    was, exactly when its key header is missing, empty or different from
    the configured key; a request whose header is the configured key, not
    empty, is handed to the body of the route.  So without the variable a
    request presenting [default_key] is accepted. *)
Theorem api_key_configured :
  (forall environ,
      environ (py "API_KEY") = None -> API_KEY environ = py "default_key")
  /\ (forall environ v,
         environ (py "API_KEY") = Some v -> API_KEY environ = v)
  /\ (forall environ header,
         (exists e, get_api_key environ (api_key_header header) = Raise e)
         <-> (header = None \/ header = Some []
              \/ header <> Some (API_KEY environ)))
  /\ (forall num (N : Number num) (E : external num) environ header body w,
         (header = Some (API_KEY environ) ->
          API_KEY environ <> [] ->
          post_generate_pdf E environ header body w
          = generate_pdf E body (API_KEY environ) w)
         /\ (header = None \/ header = Some []
             \/ header <> Some (API_KEY environ) ->
             post_generate_pdf E environ header body w
             = (Raise (HTTPException 401 (py "Invalid or missing API Key")), w)))
  /\ (forall num (N : Number num) (E : external num) environ body w,
         environ (py "API_KEY") = None ->
         post_generate_pdf E environ (Some (py "default_key")) body w
         = generate_pdf E body (py "default_key") w).
Proof.
  split; [|split; [|split; [|split]]].
  - intros environ Henv. unfold API_KEY. now rewrite Henv.
  - intros environ v Henv. unfold API_KEY. now rewrite Henv.
  - intros environ header. split.
    + intros [e He].
      destruct header as [[|c k]|]; [right; now left | | now left].
      right. right. intros Heq.
      assert (Hne : API_KEY environ <> []) by (injection Heq as <-; discriminate).
      rewrite Heq, (get_api_key_accepts environ Hne) in He. discriminate.
    + intros Hrej. exists unauthorized. now apply get_api_key_rejects.
  - intros num N E environ header body w. split.
    + intros -> Hne. unfold post_generate_pdf.
      now rewrite (get_api_key_accepts environ Hne).
    + intros Hrej. unfold post_generate_pdf.
      now rewrite (get_api_key_rejects environ Hrej).
  - intros num N E environ body w Henv.
    assert (Hk : API_KEY environ = py "default_key")
      by (unfold API_KEY; now rewrite Henv).
    unfold post_generate_pdf.
    assert (Hne : API_KEY environ <> []) by (rewrite Hk; discriminate).
    generalize (get_api_key_accepts environ Hne). rewrite Hk. now intros ->.
Qed.

Lemma api_key_configured_witness :
  API_KEY secret_environ = py "s3cret"
  /\ post_generate_pdf sample_external secret_environ (Some (py "s3cret"))
                       good_request empty_world
     = generate_pdf sample_external good_request (py "s3cret") empty_world
  /\ post_generate_pdf sample_external secret_environ (Some (py "default_key"))
                       good_request empty_world
     = (Raise (HTTPException 401 (py "Invalid or missing API Key")), empty_world)
  /\ post_generate_pdf sample_external no_environ (Some (py "default_key"))
                       good_request empty_world
     = generate_pdf sample_external good_request (py "default_key") empty_world.
Proof.
  destruct api_key_configured as [_ [Hset [_ [Hroute Hdefault]]]].
  assert (Hk : API_KEY secret_environ = py "s3cret")
    by (apply Hset; reflexivity).
  split; [exact Hk|]. split; [|split].
  - generalize (proj1 (Hroute Q Number_Q sample_external secret_environ
                         (Some (py "s3cret")) good_request empty_world)).
    rewrite Hk. intros Hacc. apply Hacc; [reflexivity | discriminate].
  - apply (proj2 (Hroute Q Number_Q sample_external secret_environ
                    (Some (py "default_key")) good_request empty_world)).
    right. right. rewrite Hk. discriminate.
  - apply (Hdefault Q Number_Q sample_external no_environ good_request empty_world).
    reflexivity.
Defined.

(** ** Further facts about strings *)

Section MoreStringFacts.

Lemma lstrip_idem (s : str) : lstrip (lstrip s) = lstrip s.
Proof.
  induction s as [|c s IH]; [reflexivity|].
  simpl. destruct (is_space c) eqn:E; [exact IH|].
  simpl. now rewrite E.
Qed.

Lemma rstrip_idem (s : str) : rstrip (rstrip s) = rstrip s.
Proof. unfold rstrip. now rewrite rev_involutive, lstrip_idem. Qed.

Lemma strip_idem (s : str) : strip (strip s) = strip s.
Proof.
  unfold strip. rewrite <- (strip_comm (lstrip s)).
  now rewrite lstrip_idem, rstrip_idem.
Qed.

Lemma contains_In (c : ascii) (s : str) : contains c s = true <-> In c s.
Proof.
  unfold contains. rewrite existsb_exists. split.
  - intros [x [Hin Hx]]. apply Ascii.eqb_eq in Hx. now subst x.
  - intros Hin. exists c. split; [exact Hin | apply Ascii.eqb_refl].
Qed.

Lemma In_lstrip (x : ascii) (s : str) : In x (lstrip s) -> In x s.
Proof.
  induction s as [|c s IH]; [trivial|].
  simpl. destruct (is_space c); [intros Hin; right; now apply IH | trivial].
Qed.

Lemma In_rstrip (x : ascii) (s : str) : In x (rstrip s) -> In x s.
Proof.
  unfold rstrip. intros Hin. apply in_rev in Hin.
  apply In_lstrip in Hin. now apply in_rev.
Qed.

Lemma In_strip (x : ascii) (s : str) : In x (strip s) -> In x s.
Proof. unfold strip. intros Hin. now apply In_lstrip, In_rstrip. Qed.

Lemma lstrip_keeps (x : ascii) (s : str) :
  is_space x = false -> In x s -> In x (lstrip s).
Proof.
  intros Hx. induction s as [|c s IH]; [trivial|].
  simpl. destruct (is_space c) eqn:E; [|trivial].
  intros [->|Hin]; [congruence | now apply IH].
Qed.

Lemma strip_keeps (x : ascii) (s : str) :
  is_space x = false -> In x s -> In x (strip s).
Proof.
  intros Hx Hin. unfold strip, rstrip.
  apply -> in_rev. apply lstrip_keeps; [exact Hx|].
  apply -> in_rev. now apply lstrip_keeps.
Qed.

Lemma join_cons_hd (sep : str) (c : ascii) (l : str) (rest : list str) :
  join sep ((c :: l) :: rest) = c :: join sep (l :: rest).
Proof. destruct rest; reflexivity. Qed.

(** Joining the pieces of a split with the separator gives the string back. *)
Lemma join_split (sep : ascii) (s : str) : join [sep] (split sep s) = s.
Proof.
  induction s as [|c s IH]; [reflexivity|].
  simpl split. generalize (split_not_nil sep s).
  destruct (Ascii.eqb c sep) eqn:E.
  - apply Ascii.eqb_eq in E. subst c.
    destruct (split sep s) as [|l0 rest] eqn:Hs; [congruence|]. intros _.
    change (join [sep] ([] :: l0 :: rest)) with (sep :: join [sep] (l0 :: rest)).
    now rewrite IH.
  - destruct (split sep s) as [|l0 rest] eqn:Hs; [congruence|]. intros _.
    simpl cons_hd. now rewrite join_cons_hd, IH.
Qed.

Lemma split_no_sep (sep : ascii) (x : str) :
  ~ In sep x -> split sep x = [x].
Proof.
  induction x as [|c x IH]; intros Hn; [reflexivity|].
  simpl. destruct (Ascii.eqb c sep) eqn:E.
  - apply Ascii.eqb_eq in E. subst c. exfalso. apply Hn. now left.
  - rewrite IH; [reflexivity | intros Hin; apply Hn; now right].
Qed.

Lemma split_app_sep (sep : ascii) (x r : str) :
  ~ In sep x -> split sep (x ++ sep :: r) = x :: split sep r.
Proof.
  induction x as [|c x IH]; intros Hn.
  - simpl. now rewrite Ascii.eqb_refl.
  - simpl. destruct (Ascii.eqb c sep) eqn:E.
    + apply Ascii.eqb_eq in E. subst c. exfalso. apply Hn. now left.
    + rewrite IH; [reflexivity | intros Hin; apply Hn; now right].
Qed.

(** Splitting a joined list of pieces gives the pieces back, when none
    holds the separator. *)
Lemma split_join (sep : ascii) (xs : list str) :
  xs <> [] ->
  (forall x, In x xs -> ~ In sep x) ->
  split sep (join [sep] xs) = xs.
Proof.
  induction xs as [|x xs IH]; intros Hne Hall; [congruence|].
  destruct xs as [|y ys].
  - simpl. apply split_no_sep. apply Hall. now left.
  - change (join [sep] (x :: y :: ys)) with (x ++ sep :: join [sep] (y :: ys)).
    rewrite split_app_sep by (apply Hall; now left).
    rewrite IH; [reflexivity | discriminate | intros z Hz; apply Hall; now right].
Qed.

Lemma split_piece_no_sep (sep : ascii) (s l : str) :
  In l (split sep s) -> ~ In sep l.
Proof.
  revert l. induction s as [|c s IH]; intros l.
  - simpl. intros [<-|[]]. intros [].
  - simpl. destruct (Ascii.eqb c sep) eqn:E.
    + intros [<-|Hin]; [intros [] | now apply IH].
    + generalize (split_not_nil sep s).
      destruct (split sep s) as [|l0 rest]; [congruence|]. intros _.
      simpl. intros [<-|Hin].
      * intros [Hc|Hin0].
        -- subst c. now rewrite Ascii.eqb_refl in E.
        -- revert Hin0. apply IH. now left.
      * apply IH. now right.
Qed.

Lemma split_piece_In (sep : ascii) (s l : str) (x : ascii) :
  In l (split sep s) -> In x l -> In x s.
Proof.
  revert l. induction s as [|c s IH]; intros l.
  - simpl. intros [<-|[]] [].
  - simpl. destruct (Ascii.eqb c sep) eqn:E.
    + intros [<-|Hin]; [intros [] | intros Hx; right; now apply (IH l)].
    + generalize (split_not_nil sep s).
      destruct (split sep s) as [|l0 rest]; [congruence|]. intros _.
      simpl. intros [<-|Hin].
      * intros [->|Hx]; [now left | right; apply (IH l0); [now left | exact Hx]].
      * intros Hx. right. apply (IH l); [now right | exact Hx].
Qed.

Lemma PIPE_not_space : is_space PIPE = false.
Proof. reflexivity. Qed.

End MoreStringFacts.

(** ** Further properties of the table parser *)

(** X1.  The grid depends only on the header and the data lines: two
    markups with the same header and data lines and well-formed
    separators parse to the same grid, whatever their blank lines, their
    indentation and the number of cells of their separators. *)
Theorem parse_markdown_table_lines_only
    (m1 m2 header s1 s2 d : str) (ds : list str) :
  nonblank_lines m1 = header :: s1 :: d :: ds ->
  nonblank_lines m2 = header :: s2 :: d :: ds ->
  separator_ok s1 = true ->
  separator_ok s2 = true ->
  exists g, parse_markdown_table m1 = Ok g /\ parse_markdown_table m2 = Ok g.
Proof.
  intros H1 H2 Hs1 Hs2.
  exists (map (fun line => pad (max_cols (header :: d :: ds)) (cells line))
              (header :: d :: ds)).
  rewrite !parse_markdown_table_table_grid. unfold table_grid.
  now rewrite H1, H2, Hs1, Hs2.
Qed.

Lemma parse_markdown_table_lines_only_witness :
  exists g, parse_markdown_table small_table = Ok g
            /\ parse_markdown_table loose_table = Ok g.
Proof.
  exact (parse_markdown_table_lines_only small_table loose_table
           (header := py "A|B") (s1 := py "--|--") (s2 := py "-|-|-")
           (d := py "1|2") (ds := [])
           eq_refl eq_refl eq_refl eq_refl).
Defined.

Lemma pad_In (n : nat) (row : list str) (cell : str) :
  In cell (pad n row) -> In cell row \/ cell = [].
Proof.
  unfold pad. intros Hin. apply in_app_or in Hin.
  destruct Hin as [Hin|Hin]; [now left|].
  right. now apply repeat_spec in Hin.
Qed.

(** X2.  Every cell of a parsed grid is trimmed already: trimming it
    again changes nothing. *)
Theorem parsed_cells_trimmed (markdown : str) (g : grid) :
  parse_markdown_table markdown = Ok g ->
  forall row cell, In row g -> In cell row -> strip cell = cell.
Proof.
  intros Hp row cell Hrow Hcell.
  destruct (parse_markdown_table_ok _ Hp)
    as [header [separator [d [ds [_ [_ Hg]]]]]].
  subst g. apply in_map_iff in Hrow. destruct Hrow as [line [<- _]].
  apply pad_In in Hcell. destruct Hcell as [Hcell | ->]; [|reflexivity].
  unfold cells in Hcell. apply in_map_iff in Hcell.
  destruct Hcell as [c [<- _]]. apply strip_idem.
Qed.

Lemma parsed_cells_trimmed_witness :
  strip (py "A") = py "A".
Proof.
  apply (parsed_cells_trimmed piped_table
           (g := [[[]; py "A"; py "B"; []]; [[]; py "1"; py "2"; []]])
           eq_refl [[]; py "A"; py "B"; []]).
  - now left.
  - right. now left.
Defined.

Lemma cells_leading_pipe (rest : str) :
  exists cs, cells (PIPE :: rest) = [] :: cs.
Proof.
  exists (map strip (split PIPE rest)). reflexivity.
Qed.

Lemma nth_pad_last (n : nat) (row : list str) :
  row <> [] -> length row <= n ->
  nth (n - 1) (pad n row) [] = if length row =? n then last row [] else [].
Proof.
  intros Hne Hle. unfold pad.
  destruct (length row =? n) eqn:E.
  - apply Nat.eqb_eq in E. subst n. rewrite Nat.sub_diag. simpl repeat.
    rewrite app_nil_r.
    destruct row as [|x row] using rev_ind; [congruence|].
    rewrite length_app, last_last. simpl.
    replace (length row + 1 - 1) with (length row) by lia.
    now rewrite nth_middle.
  - apply Nat.eqb_neq in E.
    rewrite app_nth2 by lia. apply nth_repeat.
Qed.

(** X3.  Outer pipes give blank outer columns: when every non-blank line
    of a table begins with the pipe, the first column of the parsed grid
    is blank, and when every one ends with the pipe, the last column is
    blank.  Column cleanup is what removes them. *)
Theorem outer_pipes_blank_columns (markdown : str) (g : grid) :
  parse_markdown_table markdown = Ok g ->
  ((forall line, In line (nonblank_lines markdown) ->
                 exists rest, line = PIPE :: rest) ->
   blank_column g 0 = true)
  /\ ((forall line, In line (nonblank_lines markdown) ->
                    exists front, line = front ++ [PIPE]) ->
      blank_column g (length (hd [] g) - 1) = true).
Proof.
  intros Hp.
  destruct (parse_markdown_table_ok _ Hp)
    as [header [separator [d [ds [Hlines [_ Hg]]]]]].
  set (lines := header :: d :: ds) in *.
  assert (Hsub : forall line, In line lines -> In line (nonblank_lines markdown)).
  { rewrite Hlines. intros line [<-|Hin]; [now left | right; now right]. }
  split.
  - intros Hall. unfold blank_column, column. rewrite forallb_forall.
    intros c Hc. apply in_map_iff in Hc. destruct Hc as [row [<- Hrow]].
    subst g. apply in_map_iff in Hrow. destruct Hrow as [line [<- Hline]].
    destruct (Hall line (Hsub line Hline)) as [rest ->].
    destruct (cells_leading_pipe rest) as [cs ->]. reflexivity.
  - intros Hall.
    assert (Hw : length (hd [] g) = max_cols lines).
    { subst g. simpl. apply pad_length. apply max_cols_ge. now left. }
    rewrite Hw. unfold blank_column, column. rewrite forallb_forall.
    intros c Hc. apply in_map_iff in Hc. destruct Hc as [row [<- Hrow]].
    subst g. apply in_map_iff in Hrow. destruct Hrow as [line [<- Hline]].
    rewrite nth_pad_last.
    + destruct (length (cells line) =? max_cols lines); [|reflexivity].
      destruct (Hall line (Hsub line Hline)) as [front ->].
      unfold cells.
      rewrite split_snoc, Ascii.eqb_refl, map_app. simpl map.
      rewrite last_last. reflexivity.
    + generalize (cells_length_pos line). destruct (cells line); simpl; [lia | discriminate].
    + now apply max_cols_ge.
Qed.

Lemma outer_pipes_blank_columns_witness :
  blank_column [[[]; py "A"; py "B"; []]; [[]; py "1"; py "2"; []]] 0 = true.
Proof.
  apply (proj1 (outer_pipes_blank_columns piped_table eq_refl)).
  intros line Hin. vm_compute in Hin.
  destruct Hin as [<-|[<-|[<-|[]]]]; eexists; reflexivity.
Defined.

(** ** Further properties of column cleanup and of the rasterizer *)

(** X4.  Column cleanup keeps the number of rows of every grid, ragged
    grids included. *)
Theorem clean_table_data_rows (g : grid) :
  length (clean_table_data g) = length g.
Proof.
  destruct g as [|r g]; [reflexivity|].
  set (cleaned := filter col_has_text (zip_star (r :: g))).
  assert (Hc : clean_table_data (r :: g)
               = if truthy cleaned then zip_star cleaned else r :: g)
    by reflexivity.
  rewrite Hc. destruct (truthy cleaned) eqn:Ht; [|reflexivity].
  assert (Hne : cleaned <> []) by (destruct cleaned; discriminate).
  assert (Hrect : rectangular (length (r :: g)) cleaned)
    by (apply rectangular_filter, zip_star_col_length).
  rewrite (zip_star_rectangular Hne Hrect).
  now rewrite length_map, length_seq.
Qed.

Lemma kept_columns_not_blank (g : grid) (w j : nat) :
  In j (kept_columns g w) -> blank_column g j = false.
Proof.
  unfold kept_columns. intros Hin. apply filter_In in Hin.
  destruct Hin as [_ Hn]. now destruct (blank_column g j).
Qed.

(** X5.  After column cleanup of a grid whose rows have [w] cells and one
    of whose columns is not blank, no column is blank. *)
Theorem clean_table_data_no_blank_column (w : nat) (g : grid) :
  rectangular w g ->
  (exists j, j < w /\ blank_column g j = false) ->
  forall i, i < length (hd [] (clean_table_data g)) ->
            blank_column (clean_table_data g) i = false.
Proof.
  intros Hrect [j [Hj Hb]].
  destruct g as [|r0 g0]; [discriminate Hb|].
  assert (Hg : r0 :: g0 <> []) by discriminate.
  set (g := r0 :: g0) in *.
  rewrite (clean_table_data_rectangular Hg Hrect).
  assert (Hin : In j (kept_columns g w)).
  { apply filter_In. split; [apply in_seq; lia | now rewrite Hb]. }
  destruct (kept_columns g w) as [|k ks] eqn:Hk; [contradiction|].
  cbn [truthy]. rewrite <- Hk. clear Hin.
  unfold g at 2. cbn [map hd]. rewrite length_map. intros i Hi.
  assert (Hcol : column (map (fun row => map (fun j0 => nth j0 row [])
                                           (kept_columns g w)) g) i
                 = column g (nth i (kept_columns g w) 0)).
  { unfold column. rewrite map_map. apply map_ext. intros row.
    rewrite (nth_indep _ [] (nth 0 row [])) by now rewrite length_map.
    exact (map_nth (fun j0 => nth j0 row []) (kept_columns g w) 0 i). }
  unfold blank_column. rewrite Hcol.
  apply (kept_columns_not_blank g w). now apply nth_In.
Qed.

Lemma clean_table_data_no_blank_column_witness :
  blank_column (clean_table_data blank_middle) 1 = false.
Proof.
  apply (@clean_table_data_no_blank_column 3 blank_middle).
  - repeat constructor.
  - exists 0. split; [lia | reflexivity].
  - vm_compute. lia.
Defined.

(** X6.  Column cleanup returns a grid without blank columns as it is. *)
Theorem clean_table_data_fixed (w : nat) (g : grid) :
  rectangular w g ->
  (forall j, j < w -> blank_column g j = false) ->
  clean_table_data g = g.
Proof.
  intros Hrect Hall.
  destruct g as [|r0 g0]; [reflexivity|].
  assert (Hg : r0 :: g0 <> []) by discriminate.
  set (g := r0 :: g0) in *.
  rewrite (clean_table_data_rectangular Hg Hrect).
  assert (Hk : kept_columns g w = seq 0 w).
  { unfold kept_columns. apply forallb_filter_id. apply forallb_forall.
    intros j Hj. apply in_seq in Hj. rewrite Hall by lia. reflexivity. }
  rewrite Hk. destruct (truthy (seq 0 w)); [|reflexivity].
  rewrite <- (map_id g) at 2. apply map_ext_in. intros row Hrow.
  unfold rectangular in Hrect. rewrite Forall_forall in Hrect.
  rewrite <- (Hrect row Hrow).
  etransitivity; [exact (map_seq_nth (fun x : str => x) [] row) | apply map_id].
Qed.

Lemma clean_table_data_fixed_witness :
  clean_table_data [[py "A"; py "B"]; [py "1"; []]] = [[py "A"; py "B"]; [py "1"; []]].
Proof.
  apply (@clean_table_data_fixed 2).
  - repeat constructor.
  - intros [|[|j]] Hj; [reflexivity | reflexivity | lia].
Defined.

(** X7.  In exact arithmetic the figure is at most fifteen units wide, and
    half a unit per character of the widest cells when that is less. *)
Theorem fig_width_capped (data : grid) :
  (fig_width (num := Q) data <= 15)%Q
  /\ ((list_sum (col_widths data) < 30)%nat ->
      fig_width (num := Q) data
      = (inject_Z (Z.of_nat (list_sum (col_widths data))) * (1 # 2))%Q).
Proof.
  unfold fig_width, py_min. cbn [gt mul of_Z half Number_Q].
  set (x := (inject_Z (Z.of_nat (list_sum (col_widths data))) * (1 # 2))%Q).
  split.
  - destruct (Qle_bool (inject_Z 15) x) eqn:E; cbn [negb].
    + apply Qle_refl.
    + apply Qlt_le_weak, Qnot_le_lt. intros Hle.
      apply Qle_bool_iff in Hle.
      change (Qle_bool (inject_Z 15) x = true) in Hle.
      rewrite E in Hle. discriminate.
  - intros Hlt. destruct (Qle_bool (inject_Z 15) x) eqn:E; cbn [negb];
      [|reflexivity].
    exfalso. apply Qle_bool_iff in E. subst x.
    unfold Qle in E. simpl in E. lia.
Qed.

Lemma fig_width_capped_witness :
  fig_width (num := Q) [[py "A"; py "B"]; [py "1"; py "2"]] = (inject_Z 2 * (1 # 2))%Q.
Proof.
  apply (proj2 (fig_width_capped [[py "A"; py "B"]; [py "1"; py "2"]])).
  vm_compute. lia.
Defined.

(** ** Further properties of the content renderer *)

Lemma body_lines_no_pipe (content line : str) :
  contains PIPE content = false ->
  In line (body_lines content) ->
  contains PIPE line = false.
Proof.
  intros Hc Hin. destruct (contains PIPE line) eqn:Hl; [|reflexivity].
  apply contains_In in Hl.
  assert (Hp : In PIPE content)
    by (apply In_strip; eapply split_piece_In; eassumption).
  apply contains_In in Hp. congruence.
Qed.

(** X8.  A body without the pipe is drawn as one text block holding the
    trimmed body, followed by a line break, when the document accepts the
    calls. *)
Theorem render_content_prose_body
    (num : Type) (N : Number num) (E : external num) (content : str) (w : world num) :
  never_raises E ->
  contains PIPE content = false ->
  render_content E content w
  = (Ok tt,
     {| pdf := pdf w ++ [MultiCell 0 8 (strip content); Ln (of_Z 5)];
        cos := cos w |}).
Proof.
  intros Hn Hc. rewrite render_content_runs.
  rewrite (@runs_all_prose (body_lines content)).
  - simpl. rewrite bind_unit_ret_r. unfold multi_cell, ln, prose_text, body_lines.
    rewrite join_split, strip_idem.
    rewrite (bind_ok _ _ _ (call_pdf_ok _ w Hn)).
    rewrite (call_pdf_ok _ _ Hn). cbn [pdf cos].
    now rewrite <- app_assoc.
  - apply split_not_nil.
  - intros line. now apply body_lines_no_pipe.
Qed.

Lemma render_content_prose_body_witness :
  render_content sample_external (py "  Holdings. ") empty_world
  = (Ok tt, {| pdf := [MultiCell 0 8 (py "Holdings."); Ln (inject_Z 5)]; cos := [] |}).
Proof.
  apply (@render_content_prose_body Q Number_Q sample_external (py "  Holdings. ")
           empty_world (proj1 sample_external_reliable)).
  reflexivity.
Defined.

Lemma run_lines_in_body (lines : list str) (r : run) (l : str) :
  In r (runs lines) -> In l (run_lines r) -> In l lines.
Proof.
  intros Hr Hl. rewrite <- (runs_lines lines).
  apply in_concat. exists (run_lines r). split; [|exact Hl].
  apply in_map_iff. now exists r.
Qed.

Lemma table_run_rows (content : str) (ls : list str) :
  In (TableRun ls) (runs (body_lines content)) ->
  nonblank_lines (table_text ls) = map strip ls.
Proof.
  intros Hr.
  assert (Hhom : homogeneous (TableRun ls)).
  { generalize (runs_homogeneous (body_lines content)).
    rewrite Forall_forall. intros Hall. now apply Hall. }
  destruct Hhom as [Hne Hall]. simpl in Hne, Hall.
  rewrite Forall_forall in Hall.
  assert (Hlf : forall x, In x (map strip ls) -> ~ In LF x).
  { intros x Hx. apply in_map_iff in Hx. destruct Hx as [l [<- Hl]].
    intros Hin. apply In_strip in Hin.
    assert (Hbody : In l (body_lines content))
      by (eapply run_lines_in_body; [exact Hr | exact Hl]).
    revert Hin. eapply split_piece_no_sep. exact Hbody. }
  unfold nonblank_lines, table_text.
  rewrite split_join; [| destruct ls; [congruence | discriminate] | exact Hlf].
  rewrite map_map.
  rewrite (map_ext (fun l => strip (strip l)) strip) by (intros l; apply strip_idem).
  apply forallb_filter_id. apply forallb_forall.
  intros x Hx. apply in_map_iff in Hx. destruct Hx as [l [<- Hl]].
  assert (Hp : In PIPE (strip l)).
  { apply strip_keeps; [reflexivity|]. apply contains_In. now apply Hall. }
  destruct (strip l); [contradiction | reflexivity].
Qed.

(** X9.  The parser receives a table block of a body as its trimmed
    lines: joining them and splitting them again loses nothing, and no
    line of the block is discarded as blank. *)
Theorem table_block_rows (content : str) (ls : list str) :
  In (TableRun ls) (runs (body_lines content)) ->
  nonblank_lines (table_text ls) = map strip ls.
Proof. apply table_run_rows. Qed.

Lemma table_block_rows_witness :
  nonblank_lines (table_text [py "| A | B |"; py "|---|---|"; py "| 1 | 2 |"])
  = [py "| A | B |"; py "|---|---|"; py "| 1 | 2 |"].
Proof.
  apply (table_block_rows summary_body).
  vm_compute. right. left. reflexivity.
Defined.

(** Rendering keeps every property of the world that calls on the
    document other than the output call keep. *)
Section InvariantFacts.

Context {num : Type} `{Number num}.
Variable E : external num.
Variable P : world num -> Prop.
Hypothesis P_call : forall c, is_Output c = false -> preserves P (call_pdf E c).

Lemma inv_render_table (markdown : str) : preserves P (render_table E markdown).
Proof.
  unfold render_table.
  apply preserves_try_except; [|intros e; apply preserves_raise].
  apply preserves_bind; [apply preserves_lift | intros g].
  apply preserves_bind.
  { unfold create_dynamic_table_image.
    apply preserves_try_except; [|intros e; apply preserves_raise].
    destruct (negb (truthy (clean_table_data g))); [apply preserves_ret|].
    apply preserves_bind; [apply preserves_lift | intros a; apply preserves_ret]. }
  intros file. apply preserves_bind.
  { unfold get_image_height, get_image_dimensions. apply preserves_bind.
    - destruct file; [apply preserves_ret | apply preserves_raise].
    - intros [iw ih]. apply preserves_ret. }
  intros h. apply preserves_bind; [intros w Hw; exact Hw | intros y].
  apply preserves_bind.
  { destruct (gt _ _); [now apply P_call | apply preserves_ret]. }
  intros _. apply preserves_bind; [intros w Hw; exact Hw | intros y'].
  apply preserves_bind.
  { destruct file; [now apply P_call | apply preserves_raise]. }
  intros _. now apply P_call.
Qed.

Lemma inv_flush_run (r : run) : preserves P (flush_run E r).
Proof.
  destruct r as [ls|ls]; simpl.
  - apply preserves_bind; [now apply P_call | intros _; now apply P_call].
  - apply preserves_bind; [apply inv_render_table | intros _; now apply P_call].
Qed.

Lemma inv_render_runs (rs : list run) : preserves P (render_runs E rs).
Proof.
  induction rs as [|r rs IH]; simpl.
  - apply preserves_ret.
  - apply preserves_bind; [apply inv_flush_run | intros _; exact IH].
Qed.

Lemma inv_render_content (content : str) : preserves P (render_content E content).
Proof.
  apply preserves_ext with (m' := render_runs E (runs (body_lines content)));
    [apply render_content_runs | apply inv_render_runs].
Qed.

Lemma inv_add_section (title content : str) (d : bool) :
  preserves P (add_section E title content d).
Proof.
  unfold add_section.
  apply preserves_try_except; [|intros e; apply preserves_raise].
  apply preserves_bind.
  { destruct d;
      (apply preserves_bind; [now apply P_call | intros _; now apply P_call]). }
  intros _. apply preserves_bind; [now apply P_call | intros _].
  apply preserves_bind; [now apply P_call | intros _].
  apply preserves_bind.
  { destruct (negb d); [|apply preserves_ret].
    apply preserves_bind; [now apply P_call | intros _; now apply P_call]. }
  intros _. apply preserves_bind; [apply inv_render_content | intros _].
  now apply P_call.
Qed.

Lemma inv_fails_render_content (content : str) (ls : list str) (e : exn) :
  In (TableRun ls) (runs (body_lines content)) ->
  parse_markdown_table (table_text ls) = Raise e ->
  fails P (render_content E content).
Proof.
  intros Hin Hp.
  apply fails_ext with (m' := render_runs E (runs (body_lines content)));
    [apply render_content_runs|].
  induction (runs (body_lines content)) as [|r rs IH]; [contradiction|].
  simpl. destruct Hin as [->|Hin].
  - apply fails_bind_l. simpl. apply fails_bind_l.
    intros w Hw. exists e, w. split; [now apply render_table_parse_error | exact Hw].
  - apply fails_bind_r; [apply inv_flush_run | intros _; now apply IH].
Qed.

End InvariantFacts.

Lemma same_cos_call (num : Type) (E : external num) (c0 : list cos_call)
    (c : pdf_call num) :
  preserves (fun w => cos w = c0) (call_pdf E c).
Proof.
  intros w Hw. unfold call_pdf.
  destruct (fpdf_raises E (pdf w) c); exact Hw.
Qed.

(** X10.  A run of one or two table lines in a body makes the content
    renderer raise, whatever the libraries do and whatever was drawn
    before, and the storage is left as it was. *)
Theorem short_table_run_raises
    (num : Type) (N : Number num) (E : external num)
    (content : str) (ls : list str) (w : world num) :
  In (TableRun ls) (runs (body_lines content)) ->
  length ls < 3 ->
  exists e w', render_content E content w = (Raise e, w') /\ cos w' = cos w.
Proof.
  intros Hr Hlen.
  assert (Hp : parse_markdown_table (table_text ls)
               = Raise (insufficient_rows (table_text ls))).
  { rewrite parse_markdown_table_table_grid. unfold table_grid.
    rewrite (table_run_rows content ls Hr).
    destruct ls as [|a [|b [|c ls]]]; try reflexivity.
    simpl in Hlen. lia. }
  assert (Hf : fails (fun x => cos x = cos w) (render_content E content)).
  { eapply inv_fails_render_content;
      [intros c _; apply same_cos_call | exact Hr | exact Hp]. }
  exact (Hf w eq_refl).
Qed.

Lemma short_table_run_raises_witness :
  exists e w',
    render_content sample_external (py "Intro" ++ [LF] ++ py "a|b") empty_world
    = (Raise e, w')
    /\ cos w' = [].
Proof.
  apply (@short_table_run_raises Q Number_Q sample_external
           (py "Intro" ++ [LF] ++ py "a|b") [py "a|b"] empty_world).
  - vm_compute. right. left. reflexivity.
  - simpl. lia.
Defined.

(** X11.  When the rasterizer raises on the grid of a table that parses,
    [render_table] raises the same exception and draws nothing. *)
Theorem render_table_rasterizer_error
    (num : Type) (N : Number num) (E : external num)
    (markdown : str) (g : grid) (e : exn) (w : world num) :
  parse_markdown_table markdown = Ok g ->
  savefig E (fig_width (clean_table_data g)) (fig_height (clean_table_data g))
          (clean_table_data g) = Raise e ->
  render_table E markdown w = (Raise e, w).
Proof.
  intros Hp Hs.
  assert (Hne : clean_table_data g <> []).
  { destruct (parsed_clean_not_empty _ Hp) as [_ [_ [Hlen _]]].
    destruct (clean_table_data g); [simpl in Hlen; lia | discriminate]. }
  unfold render_table. rewrite try_except_reraise.
  unfold bind at 1. unfold lift. rewrite Hp.
  apply bind_raise.
  unfold create_dynamic_table_image. rewrite try_except_reraise.
  destruct (clean_table_data g) as [|r rs]; [congruence|]. cbn [truthy negb].
  unfold bind, lift. now rewrite Hs.
Qed.

Lemma render_table_rasterizer_error_witness :
  render_table broken_rasterizer small_table empty_world
  = (Raise (LibraryError (py "no display")), empty_world).
Proof.
  apply (@render_table_rasterizer_error Q Number_Q broken_rasterizer small_table
           [[py "A"; py "B"]; [py "1"; py "2"]]).
  - reflexivity.
  - reflexivity.
Defined.

(** ** Further facts about the route *)

Section MoreRouteFacts.

Context {num : Type} `{Number num}.
Variable E : external num.

Lemma try_except_cong (A : Type) (m m' : M num A) (h : exn -> M num A) w :
  (forall w0, m w0 = m' w0) -> try_except m h w = try_except m' h w.
Proof. intros Hm. unfold try_except. now rewrite Hm. Qed.

(** The route is the build of the document, its output and its storage,
    under one handler. *)
Lemma generate_pdf_split (body : GeneratePDFRequest) (api_key : str) w :
  generate_pdf E body api_key w
  = try_except
      (build_document E body ;;
       call_pdf E Output ;;
       pdf_output <- (fun w0 => (fpdf_output E (pdf w0), w0)) ;;
       store_document E pdf_output)
      (fun e => raise (error_response E e)) w.
Proof.
  unfold generate_pdf. apply try_except_cong. intros w0.
  unfold build_document. symmetry.
  rewrite bind_assoc. apply bind_ext. intros _ w1.
  rewrite bind_assoc. apply bind_ext. intros _ w2.
  rewrite bind_assoc. apply bind_ext. intros _ w3.
  rewrite bind_assoc. apply bind_ext. intros _ w4.
  reflexivity.
Qed.

Lemma same_cos_StyledPDF (c0 : list cos_call) :
  preserves (fun w => cos w = c0) (StyledPDF E).
Proof.
  unfold StyledPDF. apply preserves_bind; [intros w Hw; exact Hw | intros _].
  apply preserves_try_except; [|intros e; apply preserves_raise].
  repeat (apply preserves_bind; [apply same_cos_call | intros _]).
  apply same_cos_call.
Qed.

(** Building the document leaves the storage as it was. *)
Lemma same_cos_build_document (c0 : list cos_call) (body : GeneratePDFRequest) :
  preserves (fun w => cos w = c0) (build_document E body).
Proof.
  assert (Hcall : forall c : pdf_call num,
             is_Output c = false -> preserves (fun w => cos w = c0) (call_pdf E c))
    by (intros c _; apply same_cos_call).
  unfold build_document.
  apply preserves_bind; [apply same_cos_StyledPDF | intros _].
  apply preserves_bind; [apply same_cos_call | intros _].
  apply preserves_bind.
  { apply preserves_for_each. intros [t c] s. now apply inv_add_section. }
  intros _. apply preserves_bind.
  { apply preserves_for_each. intros [t c] s. now apply inv_add_section. }
  intros _. now apply inv_add_section.
Qed.

(** What the storage part does, for every behaviour of the storage. *)
Lemma store_document_cases (pdf_output : str) w :
  match cos_raises E (cos w) (put_call E pdf_output) with
  | Some e =>
      store_document E pdf_output w
      = (Raise (if is_ClientError e
                then HTTPException 500 (py "Error uploading PDF to COS.")
                else e), w)
  | None =>
      let w1 := {| pdf := pdf w; cos := cos w ++ [put_call E pdf_output] |} in
      match cos_raises E (cos w1) (url_call E) with
      | Some e =>
          store_document E pdf_output w
          = (Raise (if is_ClientError e
                    then HTTPException 500 (py "Error generating pre-signed URL.")
                    else e), w1)
      | None =>
          let w2 := {| pdf := pdf w;
                       cos := cos w ++ [put_call E pdf_output; url_call E] |} in
          store_document E pdf_output w
          = (Ok {| message := py "PDF generated successfully";
                   file_url := cos_url E (cos w2) |}, w2)
      end
  end.
Proof.
  unfold store_document, bind, try_except, call_cos, ret, raise.
  destruct (cos_raises E (cos w) (put_call E pdf_output)) as [e|].
  - destruct (is_ClientError e); reflexivity.
  - cbn [cos pdf].
    destruct (cos_raises E (cos w ++ [put_call E pdf_output]) (url_call E)) as [e|].
    + destruct (is_ClientError e); reflexivity.
    + cbn [cos pdf]. now rewrite <- app_assoc.
Qed.

Lemma draws_ret : draws (num := num) [] (ret tt).
Proof. intros w. exists w. split; [reflexivity | now rewrite app_nil_r]. Qed.

Lemma draws_bind (b1 b2 : list element) (m k : M num unit) :
  draws b1 m -> draws b2 k -> draws (b1 ++ b2) (m ;; k).
Proof.
  intros Hm Hk w. destruct (Hm w) as [w1 [Hm1 He1]].
  destruct (Hk w1) as [w2 [Hk2 He2]].
  exists w2. split.
  - now rewrite (bind_ok _ _ _ Hm1).
  - now rewrite He2, He1, app_assoc.
Qed.

Lemma draws_ext (bs : list element) (m m' : M num unit) :
  (forall w, m w = m' w) -> draws bs m' -> draws bs m.
Proof. intros Heq Hm w. rewrite Heq. apply Hm. Qed.

Lemma draws_call (c : pdf_call num) :
  never_raises E -> draws (element_of_call c) (call_pdf E c).
Proof.
  intros Hn w. eexists. split; [now apply call_pdf_ok|].
  cbn [pdf]. rewrite elements_app. simpl. now rewrite app_nil_r.
Qed.

Lemma draws_render_content (content : str) (bs : list element) :
  reliable E ->
  blocks (runs (body_lines content)) = Ok bs ->
  draws bs (render_content E content).
Proof.
  intros Hr Hb w.
  generalize (render_runs_reliable (runs (body_lines content)) Hr w).
  rewrite Hb. intros [w' [Hrun He]].
  exists w'. split; [now rewrite render_content_runs | exact He].
Qed.

Lemma draws_add_section (title content : str) (d : bool) (bs : list element) :
  reliable E ->
  blocks (runs (body_lines content)) = Ok bs ->
  draws bs (add_section E title content d).
Proof.
  intros Hr Hb. assert (Hn : never_raises E) by apply Hr.
  unfold add_section.
  apply draws_ext with
    (m' := (if d
            then set_text_color E 0 0 0 ;; set_font E (py "DejaVu") (py "I") 8
            else set_text_color E 153 102 255 ;; set_font E (py "DejaVu") (py "B") 12) ;;
           cell E 0 10 title ;;
           ln E (of_Z 3) ;;
           (if negb d
            then set_font E (py "DejaVu") [] 10 ;; set_text_color E 0 0 0
            else ret tt) ;;
           render_content E content ;;
           ln E (of_Z 5));
    [intros w; apply try_except_reraise|].
  assert (Hbs : bs = [] ++ [] ++ [] ++ [] ++ bs ++ [])
    by (simpl; now rewrite app_nil_r).
  rewrite Hbs. clear Hbs.
  unfold set_text_color, set_font, cell, ln.
  apply draws_bind.
  { destruct d; apply (draws_bind (b1 := []) (b2 := []));
      now apply (draws_call (SetTextColor _ _ _)) || now apply (draws_call (SetFont _ _ _)). }
  apply draws_bind; [now apply (draws_call (Cell 0 10 title))|].
  apply draws_bind; [now apply (draws_call (Ln (of_Z 3)))|].
  apply draws_bind.
  { destruct (negb d); [|apply draws_ret].
    apply (draws_bind (b1 := []) (b2 := []));
      now apply (draws_call (SetTextColor _ _ _)) || now apply (draws_call (SetFont _ _ _)). }
  apply draws_bind; [now apply draws_render_content|].
  now apply (draws_call (Ln (of_Z 5))).
Qed.

Lemma draws_sections (items : list (str * str)) (fmt : str -> str) (bs : list element) :
  reliable E ->
  all_blocks (map snd items) = Ok bs ->
  forall w, exists w',
    for_each (fun (item : str * str) (_ : unit) =>
                let '(field, content) := item in
                add_section E (fmt field) content false) items tt w
    = (Ok tt, w')
    /\ elements (pdf w') = elements (pdf w) ++ bs.
Proof.
  intros Hr. revert bs.
  induction items as [|[field content] items IH]; intros bs Hb w.
  - simpl in Hb. injection Hb as <-. exists w.
    split; [reflexivity | now rewrite app_nil_r].
  - cbn [map snd all_blocks] in Hb.
    destruct (blocks (runs (body_lines content))) as [b1|e] eqn:Hb1; [|discriminate].
    destruct (all_blocks (map snd items)) as [b2|e] eqn:Hb2; [|discriminate].
    injection Hb as <-.
    destruct (draws_add_section (fmt field) content false Hr Hb1 w) as [w1 [Hs He1]].
    destruct (IH b2 eq_refl w1) as [w2 [Hf He2]].
    exists w2. split.
    + rewrite for_each_cons. now rewrite (bind_ok _ _ _ Hs).
    + now rewrite He2, He1, app_assoc.
Qed.

Lemma StyledPDF_fonts w :
  never_raises E ->
  StyledPDF E w = (Ok tt, {| pdf := font_calls; cos := cos w |}).
Proof.
  intros Hn. unfold StyledPDF. unfold bind at 1.
  rewrite try_except_reraise. unfold add_font.
  rewrite (bind_ok _ _ _ (call_pdf_ok _ _ Hn)).
  rewrite (bind_ok _ _ _ (call_pdf_ok _ _ Hn)).
  rewrite (bind_ok _ _ _ (call_pdf_ok _ _ Hn)).
  now rewrite (call_pdf_ok _ _ Hn).
Qed.

Lemma blocks_about_text :
  blocks (runs (body_lines about_text)) = Ok [ProseBlock about_text].
Proof. vm_compute. reflexivity. Qed.

Lemma blocks_disclaimer_text :
  blocks (runs (body_lines disclaimer_text)) = Ok [ProseBlock disclaimer_text].
Proof. vm_compute. reflexivity. Qed.

(** With reliable libraries and sections whose tables parse, the
    document is built and shows the fixed text, the elements of the
    sections of the request and the disclaimer, in that order. *)
Lemma build_document_reliable (body : GeneratePDFRequest) (bs : list element) w :
  reliable E ->
  all_blocks (map snd (dict body)) = Ok bs ->
  exists w',
    build_document E body w = (Ok tt, w')
    /\ cos w' = cos w
    /\ elements (pdf w')
       = [ProseBlock about_text] ++ bs ++ [ProseBlock disclaimer_text].
Proof.
  intros Hr Hb. assert (Hn : never_raises E) by apply Hr.
  assert (Hcos := @same_cos_build_document (cos w) body w eq_refl).
  unfold build_document in *.
  rewrite (bind_ok _ _ _ (StyledPDF_fonts w Hn)) in *.
  unfold add_page in *. rewrite (bind_ok _ _ _ (call_pdf_ok _ _ Hn)) in *.
  cbn [pdf cos] in *.
  assert (Hfixed : all_blocks (map snd fixed_content) = Ok [ProseBlock about_text])
    by (vm_compute; reflexivity).
  destruct (draws_sections fixed_content (fun t => t) Hr Hfixed
              {| pdf := font_calls ++ [AddPage]; cos := cos w |})
    as [w1 [Hf1 He1]].
  rewrite (bind_ok _ _ _ Hf1) in *.
  destruct (draws_sections (dict body) (fun f => title (replace "_" " " f)) Hr Hb w1)
    as [w2 [Hf2 He2]].
  rewrite (bind_ok _ _ _ Hf2) in *.
  destruct (draws_add_section (py "Disclaimer") disclaimer_text true Hr
              blocks_disclaimer_text w2)
    as [w3 [Hf3 He3]].
  rewrite Hf3 in *. exists w3. split; [reflexivity|]. split; [exact Hcos|].
  rewrite He3, He2, He1. cbn [pdf]. now rewrite <- !app_assoc.
Qed.

End MoreRouteFacts.

(** ** Further properties of the route *)

(** X12.  With libraries and a storage that do not raise and sections
    whose tables parse, the route builds the document with the fixed text,
    the elements of the seven sections in order and the disclaimer, stores
    its bytes once under the report name with the unique suffix, asks once
    for a link to that same name valid for 432000 seconds, and answers
    with that link. *)
Theorem generate_pdf_stores_document
    (num : Type) (N : Number num) (E : external num)
    (body : GeneratePDFRequest) (api_key : str) (bs : list element) (w : world num) :
  reliable E ->
  output_ok E ->
  storage_ok E ->
  all_blocks (map snd (dict body)) = Ok bs ->
  exists bytes w',
    generate_pdf E body api_key w
    = (Ok {| message := py "PDF generated successfully";
             file_url := cos_url E (cos w') |}, w')
    /\ fpdf_output E (pdf w') = Ok bytes
    /\ cos w'
       = cos w
         ++ [PutObject (COS_BUCKET_NAME E)
                       (py "Portfolio_Optimization_Report_" ++ uuid4 E ++ py ".pdf")
                       bytes (py "application/pdf");
             GeneratePresignedUrl (COS_BUCKET_NAME E)
                       (py "Portfolio_Optimization_Report_" ++ uuid4 E ++ py ".pdf")
                       432000]
    /\ elements (pdf w')
       = [ProseBlock about_text] ++ bs ++ [ProseBlock disclaimer_text].
Proof.
  intros Hr Ho Hs Hb. assert (Hn : never_raises E) by apply Hr.
  destruct (build_document_reliable body w Hr Hb) as [w1 [Hbuild [Hcos Hel]]].
  destruct (Ho (pdf w1 ++ [Output])) as [bytes Hbytes].
  exists bytes.
  exists {| pdf := pdf w1 ++ [Output];
            cos := cos w ++ [put_call E bytes; url_call E] |}.
  split; [|split; [exact Hbytes | split; [reflexivity|]]].
  - rewrite generate_pdf_split. unfold try_except.
    rewrite (bind_ok _ _ _ Hbuild).
    rewrite (bind_ok _ _ _ (call_pdf_ok _ _ Hn)).
    unfold bind at 1. cbn [pdf cos]. rewrite Hbytes.
    generalize (store_document_cases E bytes
                  {| pdf := pdf w1 ++ [Output]; cos := cos w1 |}).
    cbn [pdf cos]. rewrite !Hs. cbv zeta. intros ->. now rewrite Hcos.
  - cbn [pdf]. rewrite elements_app, Hel. simpl. now rewrite app_nil_r.
Qed.

Lemma sample_external_output_ok : output_ok sample_external.
Proof. intros calls. eexists. reflexivity. Qed.

Lemma sample_external_storage_ok : storage_ok sample_external.
Proof. intros calls c. reflexivity. Qed.

Lemma generate_pdf_stores_document_witness :
  exists (bytes : str) (w' : world Q),
    fst (generate_pdf sample_external good_request (py "default_key") empty_world)
    = Ok {| message := py "PDF generated successfully";
            file_url := py "https://example.invalid/report.pdf" |}
    /\ cos w'
       = [PutObject (py "bucket") (py "Portfolio_Optimization_Report_0000.pdf")
                    bytes (py "application/pdf");
          GeneratePresignedUrl (py "bucket")
                    (py "Portfolio_Optimization_Report_0000.pdf") 432000].
Proof.
  destruct (@generate_pdf_stores_document Q Number_Q sample_external good_request
              (py "default_key") _ empty_world
              sample_external_reliable sample_external_output_ok
              sample_external_storage_ok eq_refl)
    as [bytes [w' [Hgen [_ [Hcos _]]]]].
  exists bytes, w'. split; [now rewrite Hgen | exact Hcos].
Defined.

(** X13.  When the storage refuses the upload, the route answers with
    its error response and leaves the storage as it was: no link is asked
    for.  A client error of the storage becomes the upload error, which
    the handler of the route wraps like any other exception. *)
Theorem generate_pdf_upload_refused
    (num : Type) (N : Number num) (E : external num)
    (body : GeneratePDFRequest) (api_key : str) (bs : list element)
    (e : exn) (w : world num) :
  reliable E ->
  output_ok E ->
  all_blocks (map snd (dict body)) = Ok bs ->
  (forall calls b k content ct,
      cos_raises E calls (PutObject b k content ct) = Some e) ->
  exists w',
    generate_pdf E body api_key w
    = (Raise (HTTPException 500
                (py "Error generating PDF: "
                 ++ exn_str E (if is_ClientError e
                               then HTTPException 500 (py "Error uploading PDF to COS.")
                               else e))), w')
    /\ cos w' = cos w.
Proof.
  intros Hr Ho Hb Hput. assert (Hn : never_raises E) by apply Hr.
  destruct (build_document_reliable body w Hr Hb) as [w1 [Hbuild [Hcos _]]].
  destruct (Ho (pdf w1 ++ [Output])) as [bytes Hbytes].
  exists {| pdf := pdf w1 ++ [Output]; cos := cos w1 |}.
  split; [|exact Hcos].
  rewrite generate_pdf_split. unfold try_except.
  rewrite (bind_ok _ _ _ Hbuild).
  rewrite (bind_ok _ _ _ (call_pdf_ok _ _ Hn)).
  unfold bind at 1. cbn [pdf cos]. rewrite Hbytes.
  generalize (store_document_cases E bytes
                {| pdf := pdf w1 ++ [Output]; cos := cos w1 |}).
  unfold put_call at 1. rewrite Hput. intros ->. reflexivity.
Qed.

Lemma generate_pdf_upload_refused_witness :
  exists w',
    generate_pdf refusing_uploads good_request (py "default_key") empty_world
    = (Raise (HTTPException 500
                (py "Error generating PDF: Error uploading PDF to COS.")), w')
    /\ cos w' = [].
Proof.
  refine (@generate_pdf_upload_refused Q Number_Q refusing_uploads good_request
            (py "default_key") _ (ClientError (py "AccessDenied")) empty_world
            _ _ eq_refl _).
  - split; [intros calls c; reflexivity | intros fw fh g; eexists; reflexivity].
  - intros calls. eexists. reflexivity.
  - intros calls b k content ct. reflexivity.
Defined.

(** X14.  When the storage accepts the upload and refuses the link, the
    route answers with its error response although the document is
    stored: the object stays in the storage. *)
Theorem generate_pdf_link_refused
    (num : Type) (N : Number num) (E : external num)
    (body : GeneratePDFRequest) (api_key : str) (bs : list element)
    (e : exn) (w : world num) :
  reliable E ->
  output_ok E ->
  all_blocks (map snd (dict body)) = Ok bs ->
  (forall calls b k content ct,
      cos_raises E calls (PutObject b k content ct) = None) ->
  (forall calls b k expires,
      cos_raises E calls (GeneratePresignedUrl b k expires) = Some e) ->
  exists bytes w',
    generate_pdf E body api_key w
    = (Raise (HTTPException 500
                (py "Error generating PDF: "
                 ++ exn_str E (if is_ClientError e
                               then HTTPException 500
                                      (py "Error generating pre-signed URL.")
                               else e))), w')
    /\ cos w'
       = cos w
         ++ [PutObject (COS_BUCKET_NAME E)
                       (py "Portfolio_Optimization_Report_" ++ uuid4 E ++ py ".pdf")
                       bytes (py "application/pdf")].
Proof.
  intros Hr Ho Hb Hput Hurl. assert (Hn : never_raises E) by apply Hr.
  destruct (build_document_reliable body w Hr Hb) as [w1 [Hbuild [Hcos _]]].
  destruct (Ho (pdf w1 ++ [Output])) as [bytes Hbytes].
  exists bytes.
  exists {| pdf := pdf w1 ++ [Output]; cos := cos w ++ [put_call E bytes] |}.
  split; [|reflexivity].
  rewrite generate_pdf_split. unfold try_except.
  rewrite (bind_ok _ _ _ Hbuild).
  rewrite (bind_ok _ _ _ (call_pdf_ok _ _ Hn)).
  unfold bind at 1. cbn [pdf cos]. rewrite Hbytes.
  generalize (store_document_cases E bytes
                {| pdf := pdf w1 ++ [Output]; cos := cos w1 |}).
  unfold put_call at 1. rewrite Hput. cbv zeta.
  unfold url_call at 1. rewrite Hurl. cbn [pdf cos]. intros ->.
  now rewrite Hcos.
Qed.

Lemma generate_pdf_link_refused_witness :
  exists bytes w',
    generate_pdf refusing_links good_request (py "default_key") empty_world
    = (Raise (HTTPException 500
                (py "Error generating PDF: Error generating pre-signed URL.")), w')
    /\ cos w'
       = [PutObject (py "bucket") (py "Portfolio_Optimization_Report_0000.pdf")
                    bytes (py "application/pdf")].
Proof.
  refine (@generate_pdf_link_refused Q Number_Q refusing_links good_request
            (py "default_key") _ (ClientError (py "AccessDenied")) empty_world
            _ _ eq_refl _ _).
  - split; [intros calls c; reflexivity | intros fw fh g; eexists; reflexivity].
  - intros calls. eexists. reflexivity.
  - intros calls b k content ct. reflexivity.
  - intros calls b k expires. reflexivity.
Defined.

(** X15.  Whatever the libraries and the storage do, the route ends in
    one of two ways.  Either it answers with the link, after exactly one
    upload followed by one request for a link; or it answers with an
    error of status 500, after no call on the storage or after the upload
    alone.  No other exception leaves the route and no link is asked for
    before the upload. *)
Theorem generate_pdf_storage_discipline
    (num : Type) (N : Number num) (E : external num)
    (body : GeneratePDFRequest) (api_key : str) (w : world num) :
  let r := generate_pdf E body api_key w in
  let name := py "Portfolio_Optimization_Report_" ++ uuid4 E ++ py ".pdf" in
  (exists bytes,
      fst r = Ok {| message := py "PDF generated successfully";
                    file_url := cos_url E (cos (snd r)) |}
      /\ cos (snd r)
         = cos w ++ [PutObject (COS_BUCKET_NAME E) name bytes (py "application/pdf");
                     GeneratePresignedUrl (COS_BUCKET_NAME E) name 432000])
  \/ (exists detail,
         fst r = Raise (HTTPException 500 detail)
         /\ (cos (snd r) = cos w
             \/ exists bytes,
                 cos (snd r)
                 = cos w ++ [PutObject (COS_BUCKET_NAME E) name bytes
                                       (py "application/pdf")])).
Proof.
  intros r name.
  assert (Hr : r = generate_pdf E body api_key w) by reflexivity.
  clearbody r. revert Hr.
  rewrite generate_pdf_split. unfold try_except.
  unfold bind at 1.
  generalize (@same_cos_build_document num N E (cos w) body w eq_refl).
  destruct (build_document E body w) as [[[]|e] w1]; cbn [snd fst]; intros Hc1.
  2:{ intros ->. right. eexists. split; [reflexivity | now left]. }
  unfold bind at 1. unfold call_pdf.
  destruct (fpdf_raises E (pdf w1) Output) as [e|].
  { intros ->. right. eexists. split; [reflexivity | now left]. }
  unfold bind at 1. cbn [pdf cos].
  destruct (fpdf_output E (pdf w1 ++ [Output])) as [bytes|e].
  2:{ intros ->. right. eexists. split; [reflexivity | now left]. }
  generalize (store_document_cases E bytes
                {| pdf := pdf w1 ++ [Output]; cos := cos w1 |}).
  cbn [pdf cos].
  destruct (cos_raises E (cos w1) (put_call E bytes)) as [e|].
  { intros -> ->. right. eexists. split; [reflexivity | now left]. }
  cbv zeta. cbn [pdf cos].
  destruct (cos_raises E (cos w1 ++ [put_call E bytes]) (url_call E)) as [e|].
  { intros -> ->. right. eexists. split; [reflexivity|]. right.
    exists bytes. cbn [snd cos]. now rewrite Hc1. }
  intros -> ->. left. exists bytes. cbn [fst snd cos]. rewrite Hc1.
  split; reflexivity.
Qed.

Lemma StyledPDF_refused (num : Type) (E : external num) (c : pdf_call num)
    (e : exn) (w : world num) :
  In c font_calls ->
  (forall calls, fpdf_raises E calls c = Some e) ->
  exists e' w',
    StyledPDF E w = (Raise e', w')
    /\ cos w' = cos w
    /\ existsb is_AddPage (pdf w') = false.
Proof.
  intros Hin Hc.
  unfold StyledPDF, bind, try_except, raise, add_font, call_pdf. cbn [pdf cos].
  repeat match goal with
         | |- context [fpdf_raises E ?calls ?f] =>
             let Ec := fresh "Ec" in
             destruct (fpdf_raises E calls f) eqn:Ec; cbn [pdf cos app];
             [do 2 eexists; split; [reflexivity | split; reflexivity] |]
         end.
  exfalso. unfold font_calls in Hin.
  destruct Hin as [<-|[<-|[<-|[<-|[]]]]]; rewrite Hc in *; discriminate.
Qed.

(** X16.  When the document refuses one of the four font files, the route
    answers with its error response before any page is started, and
    nothing is sent to the storage. *)
Theorem generate_pdf_font_refused
    (num : Type) (N : Number num) (E : external num)
    (body : GeneratePDFRequest) (api_key : str)
    (c : pdf_call num) (e : exn) (w : world num) :
  In c font_calls ->
  (forall calls, fpdf_raises E calls c = Some e) ->
  exists detail w',
    generate_pdf E body api_key w = (Raise (HTTPException 500 detail), w')
    /\ cos w' = cos w
    /\ existsb is_AddPage (pdf w') = false.
Proof.
  intros Hin Hc.
  destruct (@StyledPDF_refused num E c e w Hin Hc) as [e' [w' [Hs [Hcos Hpage]]]].
  exists (py "Error generating PDF: " ++ exn_str E e'), w'.
  split; [|split; assumption].
  rewrite generate_pdf_split. unfold try_except, build_document.
  rewrite (bind_raise _ _ _ (bind_raise _ _ _ Hs)). reflexivity.
Qed.

Lemma generate_pdf_font_refused_witness :
  exists detail w',
    generate_pdf without_bold_font good_request (py "default_key") empty_world
    = (Raise (HTTPException 500 detail), w')
    /\ cos w' = []
    /\ existsb is_AddPage (pdf w') = false.
Proof.
  refine (@generate_pdf_font_refused Q Number_Q without_bold_font good_request
            (py "default_key")
            (AddFont (py "DejaVu") (py "B") (py "DejaVuSans-Bold.ttf"))
            (LibraryError (py "font file not found")) empty_world _ _).
  - right. left. reflexivity.
  - intros calls. reflexivity.
Defined.

(** ** Widths *)

Lemma split_length_count (sep : ascii) (s : str) :
  length (split sep s) = S (count_occ ascii_dec s sep).
Proof.
  induction s as [|c s IH]; [reflexivity|].
  simpl split. destruct (Ascii.eqb c sep) eqn:E.
  - apply Ascii.eqb_eq in E. subst c.
    rewrite count_occ_cons_eq by reflexivity. simpl. now rewrite IH.
  - apply Ascii.eqb_neq in E. rewrite count_occ_cons_neq by exact E.
    generalize (split_not_nil sep s).
    destruct (split sep s) as [|l0 rest]; [congruence|]. intros _.
    exact IH.
Qed.

Lemma list_max_map_S (A : Type) (f : A -> nat) (l : list A) :
  l <> [] -> list_max (map (fun x => S (f x)) l) = S (list_max (map f l)).
Proof.
  induction l as [|x l IH]; intros Hne; [congruence|].
  destruct l as [|y l]; [simpl; lia|].
  change (Nat.max (S (f x)) (list_max (map (fun x0 => S (f x0)) (y :: l)))
          = S (Nat.max (f x) (list_max (map f (y :: l))))).
  rewrite IH by discriminate. lia.
Qed.

(** X17.  The width of a parsed grid is one more than the largest number
    of pipes in the header line or in a data line; the pipes of the
    separator do not count. *)
Theorem parsed_width_counts_pipes
    (markdown header separator d : str) (ds : list str) (g : grid) :
  nonblank_lines markdown = header :: separator :: d :: ds ->
  parse_markdown_table markdown = Ok g ->
  forall row, In row g ->
    length row
    = S (list_max (map (fun line => count_occ ascii_dec line PIPE)
                       (header :: d :: ds))).
Proof.
  intros Hlines Hp row Hrow.
  destruct (parse_markdown_table_ok _ Hp)
    as [h' [s' [d' [ds' [Hlines' [_ Hg]]]]]].
  rewrite Hlines in Hlines'. injection Hlines' as <- <- <- <-.
  destruct (table_grid_rows (data := d :: ds) Hg) as [_ Hrect].
  unfold rectangular in Hrect. rewrite Forall_forall in Hrect.
  rewrite (Hrect row Hrow). unfold max_cols, cells.
  rewrite <- list_max_map_S by discriminate.
  f_equal. apply map_ext. intros line.
  now rewrite length_map, split_length_count.
Qed.

Lemma parsed_width_counts_pipes_witness :
  length [py "A"; py "B"] = 2.
Proof.
  apply (@parsed_width_counts_pipes ragged_table (py "A|B") (py "--|--") (py "1|")
           [py "|2"] [[py "A"; py "B"]; [py "1"; []]; [[]; py "2"]]
           eq_refl eq_refl).
  now left.
Defined.

(** X18.  The rasterizer computes one width per column of a grid whose
    rows have [w] cells, and every cell is at most as long as the width
    of its column. *)
Theorem col_widths_fit (w : nat) (data : grid) :
  data <> [] ->
  rectangular w data ->
  length (col_widths data) = w
  /\ (forall row j, In row data -> j < w ->
                    length (nth j row []) <= nth j (col_widths data) 0).
Proof.
  intros Hne Hrect. unfold col_widths.
  rewrite (zip_star_rectangular Hne Hrect), map_map.
  split; [now rewrite length_map, length_seq|].
  intros row j Hrow Hj.
  rewrite (nth_indep _ 0 (list_max (map (@length ascii) (column data 0))))
    by now rewrite length_map, length_seq.
  rewrite (map_nth (fun x => list_max (map (@length ascii) (column data x)))
                   (seq 0 w) 0 j).
  rewrite seq_nth by exact Hj. simpl.
  assert (Hle : list_max (map (@length ascii) (column data j))
                <= list_max (map (@length ascii) (column data j))) by lia.
  apply list_max_le in Hle. rewrite Forall_forall in Hle.
  apply Hle. apply in_map. unfold column. apply in_map_iff. now exists row.
Qed.

Lemma col_widths_fit_witness :
  length (col_widths [[py "Name"; py "B"]; [py "1"; py "22"]]) = 2.
Proof.
  apply (@col_widths_fit 2 [[py "Name"; py "B"]; [py "1"; py "22"]]).
  - discriminate.
  - repeat constructor.
Defined.
